(** * prepare.py: the GlaS dataset generator

    A shallow embedding of [prepare.py]: the splitter
    ([split_train_val_test]), the raw-set materializer
    ([prepare_raw_images]), the patch assembler ([prepare_patches]) and
    the script that runs them ([main]).

    Python exceptions are values of [exn]; code that touches the disk is
    written in a state-and-error monad [io] over a file system [FS];
    pandas frames are kept column by column, numpy arrays as nested lists. *)

From stdpp Require Import base option strings list gmap.
From Stdlib Require Import ZArith.

Set Warnings "-clear-no-such-hyp".

Open Scope string_scope.
Open Scope list_scope.
Open Scope nat_scope.

(** ** Exceptions and results *)

Inductive exn : Type :=
| KeyError (what : string)
| ValueError (what : string)
| FileExistsError
| FileNotFoundError
| NotADirectoryError
| IsADirectoryError
| SameFileError
| OSError (what : string).

Inductive result (A : Type) : Type :=
| Ok (a : A)
| Raise (e : exn).
Arguments Ok {A} a.
Arguments Raise {A} e.

(** ** numpy arrays as [imread] returns them

    An image is [H] rows of [W] pixels; a pixel is one sample (a 2-D,
    grayscale array) or the samples of its channels (a 3-D array). *)

Inductive pixel : Type :=
| Gray (v : Z)
| Chan (cs : list Z).

Abbreviation image := (list (list pixel)).

Definition height (img : image) : nat := length img.

Definition width (img : image) : nat :=
  match img with
  | [] => 0
  | row :: _ => length row
  end.

(** The axes after the first two: [[]] for [(H, W)], [[C]] for [(H, W, C)]. *)
Definition pixel_shape (p : pixel) : list nat :=
  match p with
  | Gray _ => []
  | Chan cs => [length cs]
  end.

Definition channel_shape (img : image) : list nat :=
  match img with
  | (p :: _) :: _ => pixel_shape p
  | _ => []
  end.

(** Every row has the width of the first one. *)
Definition rectangular (img : image) : Prop :=
  Forall (λ row, length row = width img) img.

(** A stack of patches, the array of shape [(N, P, P, ...)]: [trailing] is
    the shape after the first axis, which [np.concatenate] compares. *)
Record stack : Type := Stack {
  trailing : list nat;
  patches : list image
}.

(** ** pandas frames, column by column *)

Abbreviation DataFrame := (list (string * list string)).

(** ** The file system

    A path is the list of its components ([os.path.join] appends one), the
    empty path being the working directory. *)

Abbreviation path := (list string).

Inductive node : Type :=
| Dir
| Bmp (img : image)
| Npy (a : stack)
| Csv (df : DataFrame).

Abbreviation FS := (gmap (list string) node).

Definition path_join (p : path) (name : string) : path := p ++ [name].

Definition dirname (p : path) : path := take (length p - 1) p.

Definition node_at (fs : FS) (p : path) : option node :=
  match p with
  | [] => Some Dir
  | _ => fs !! p
  end.

(** ** The monad of the scripts: a file system threaded through, and an
    exception ending the run with the file system as it then is. *)

Definition io (A : Type) : Type := FS → result A * FS.

Definition ret {A} (a : A) : io A := λ fs, (Ok a, fs).

Definition raise {A} (e : exn) : io A := λ fs, (Raise e, fs).

Definition bind {A B} (m : io A) (k : A → io B) : io B :=
  λ fs, match m fs with
        | (Ok a, fs') => k a fs'
        | (Raise e, fs') => (Raise e, fs')
        end.

Definition lift {A} (r : result A) : io A := λ fs, (r, fs).

Notation "'let*' x ':=' c 'in' k" := (bind c (λ x, k))
  (at level 10, x pattern, c at level 100, k at level 200).

(** [os.path.exists] *)
Definition path_exists (p : path) : io bool :=
  λ fs, (Ok (bool_decide (is_Some (node_at fs p))), fs).

(** [os.mkdir]: the path must be new and its parent a directory. *)
Definition mkdir (p : path) : io unit :=
  λ fs, match node_at fs p with
        | Some _ => (Raise FileExistsError, fs)
        | None =>
            match node_at fs (dirname p) with
            | Some Dir => (Ok (), <[p := Dir]> fs)
            | Some _ => (Raise NotADirectoryError, fs)
            | None => (Raise FileNotFoundError, fs)
            end
        end.

(** Opening [p] for writing, as [imsave], [np.save] and [copyfile] do. *)
Definition write_file (p : path) (n : node) : io unit :=
  λ fs, match node_at fs (dirname p) with
        | Some Dir =>
            match node_at fs p with
            | Some Dir => (Raise IsADirectoryError, fs)
            | _ => (Ok (), <[p := n]> fs)
            end
        | Some _ => (Raise NotADirectoryError, fs)
        | None => (Raise FileNotFoundError, fs)
        end.

(** [skimage.io.imread] *)
Definition imread (p : path) : io image :=
  λ fs, match node_at fs p with
        | Some (Bmp img) => (Ok img, fs)
        | Some Dir => (Raise IsADirectoryError, fs)
        | Some _ => (Raise (OSError "cannot identify image file"), fs)
        | None => (Raise FileNotFoundError, fs)
        end.

(** [skimage.io.imsave] *)
Definition imsave (p : path) (img : image) : io unit := write_file p (Bmp img).

(** [np.save] *)
Definition np_save (p : path) (a : stack) : io unit := write_file p (Npy a).

(** [shutil.copyfile] *)
Definition copyfile (src dst : path) : io unit :=
  λ fs, if decide (src = dst) then
          match node_at fs src with
          | Some _ => (Raise SameFileError, fs)
          | None => (Raise FileNotFoundError, fs)
          end
        else
          match node_at fs src with
          | Some Dir => (Raise IsADirectoryError, fs)
          | Some n => write_file dst n fs
          | None => (Raise FileNotFoundError, fs)
          end.

(** [pd.read_csv] *)
Definition read_csv (p : path) : io DataFrame :=
  λ fs, match node_at fs p with
        | Some (Csv df) => (Ok df, fs)
        | Some Dir => (Raise IsADirectoryError, fs)
        | Some _ => (Raise (ValueError "Error tokenizing data"), fs)
        | None => (Raise FileNotFoundError, fs)
        end.

(** ** pandas: the operations the splitter uses *)

(** [df.columns] *)
Definition columns (df : DataFrame) : list string := df.*1.

(** The slice [l[i:j]]. *)
Definition slice {A} (i j : nat) (l : list A) : list A := take (j - i) (drop i l).

(** [df.drop(labels, axis=1)]: every column carrying one of the labels goes. *)
Definition drop_labels (labels : list string) (df : DataFrame) : DataFrame :=
  filter (λ c, c.1 ∉ labels) df.

(** [df[label]]: the first column with that label. *)
Fixpoint getitem (df : DataFrame) (label : string) : result (list string) :=
  match df with
  | [] => Raise (KeyError label)
  | (l, c) :: df' => if decide (l = label) then Ok c else getitem df' label
  end.

(** Indexing by a boolean mask, [s[mask]] on a column and [df[mask]] on a
    frame. *)
Fixpoint select {A} (m : list bool) (l : list A) : list A :=
  match m, l with
  | b :: m', a :: l' => if b then a :: select m' l' else select m' l'
  | _, _ => []
  end.

Definition select_rows (m : list bool) (df : DataFrame) : DataFrame :=
  fmap (λ c, (c.1, select m c.2)) df.

(** [df.columns = labels] *)
Definition set_columns (labels : list string) (df : DataFrame) : result DataFrame :=
  if decide (length labels = length df)
  then Ok (zip labels (df.*2))
  else Raise (ValueError "Length mismatch").

(** [s.startswith(p)] *)
Definition startswith (p s : string) : bool := String.prefix p s.

(** [pd.factorize(l)[0]]: each value coded by the rank of its first
    appearance. *)
Fixpoint index_of (s : string) (l : list string) : option nat :=
  match l with
  | [] => None
  | t :: l' => if decide (t = s) then Some 0 else S <$> index_of s l'
  end.

Fixpoint factorize_from (uniques : list string) (l : list string) : list nat :=
  match l with
  | [] => []
  | s :: l' =>
      match index_of s uniques with
      | Some i => i :: factorize_from uniques l'
      | None => length uniques :: factorize_from (uniques ++ [s]) l'
      end
  end.

Definition factorize (l : list string) : list nat := factorize_from [] l.

(** ** The splitter *)

Section Splitter.

(** [sklearn.model_selection.train_test_split(x, y, test_size=v,
    stratify=y)] is the library's: [rng] is the state of its random
    generator, [float] the type of [val_size]; of the four arrays it returns
    the script keeps the two parts of [x]. *)
Variables (rng float : Type).
Variable train_test_split :
  rng → list string → list nat → float → result (list string * list string).

(** Lines 50 to 60: the frame read, the test groups, and the pool [x] with
    its stratification key [y]. *)
Definition read_groups (orig_path : path)
  : io (list string * list string * (list string * list nat)) :=
  let* grade := read_csv (path_join orig_path "Grade.csv") in
  let grade := drop_labels (slice 1 3 (columns grade)) grade in
  let* name := lift (getitem grade "name") in
  let* testA_set :=
    lift (getitem (select_rows (fmap (startswith "testA_") name) grade) "name") in
  let* name := lift (getitem grade "name") in
  let* testB_set :=
    lift (getitem (select_rows (fmap (startswith "testB_") name) grade) "name") in
  let* name := lift (getitem grade "name") in
  let grade := select_rows (fmap (startswith "train_") name) grade in
  let* grade := lift (set_columns ["name"; "grade"] grade) in
  let* g := lift (getitem grade "grade") in
  let codes := factorize g in
  let* x := lift (getitem grade "name") in
  let y := codes in
  ret (testA_set, testB_set, (x, y)).

Definition split_train_val_test (rs : rng) (orig_path : path) (val_size : float)
  : io (list string * list string * list string * list string) :=
  let* (testA_set, testB_set, (x, y)) := read_groups orig_path in
  let* (train_set, val_set) := lift (train_test_split rs x y val_size) in
  ret (train_set, val_set, testA_set, testB_set).

End Splitter.

(** No identifier in both groups. *)
Definition no_common (l k : list string) : Prop := ∀ id, id ∈ l → id ∉ k.

(** ** Masks *)

(** [(a > 0).astype('uint8')], sample by sample. *)
Definition binarize_value (v : Z) : Z := if (0 <? v)%Z then 1%Z else 0%Z.

Definition binarize_pixel (p : pixel) : pixel :=
  match p with
  | Gray v => Gray (binarize_value v)
  | Chan cs => Chan (binarize_value <$> cs)
  end.

Definition binarize (m : image) : image :=
  (λ row : list pixel, binarize_pixel <$> row) <$> m.

(** The masks whose samples are all 0 or 1. *)
Definition binary_value (v : Z) : bool := bool_decide (v = 0%Z ∨ v = 1%Z).

Definition binary_pixel (p : pixel) : bool :=
  match p with
  | Gray v => binary_value v
  | Chan cs => forallb binary_value cs
  end.

Definition is_binary (m : image) : bool := forallb (forallb binary_pixel) m.

(** ** Patches *)

(** The sample at line [r], column [c]. *)
Definition pixel_at (img : image) (r c : nat) : option pixel :=
  img !! r ≫= (.!! c).

(** The slice [img[r:r+h, c:c+w]]. *)
Definition crop (r c h w : nat) (img : image) : image :=
  fmap (λ row, take w (drop c row)) (take h (drop r img)).

(** The cells of the grid, rows outer and columns inner, each by the
    position of its top left pixel. *)
Definition grid_cells (H W P : nat) : list (nat * nat) :=
  flat_map (λ i, fmap (λ j, (i * P, j * P)) (seq 0 (W / P))) (seq 0 (H / P)).

(** Modelled from the spec: [utils.divide_image_to_patches], which
    [prepare.py] imports and whose file is not among the sources. The image
    is decomposed into a grid of non-overlapping [P] by [P] patches in
    row-major order, top left to bottom right, rows outer and columns inner;
    the result is the array of shape [(N, P, P, ...)]. Where a side is no
    multiple of [P] the spec leaves the policy open: the partial patches are
    dropped here. *)
Definition divide_image_to_patches (img : image) (P : nat) : stack :=
  {| trailing := P :: P :: channel_shape img;
     patches := fmap (λ rc, crop rc.1 rc.2 P P img)
                    (grid_cells (height img) (width img) P) |}.

(** Reassembling [a] rows of [b] patches of side [P], row-major: line [r]
    of the band [i] is the lines [r] of its patches, left to right. *)
Definition patch_line (ps : list image) (k r : nat) : list pixel :=
  default [] (ps !! k ≫= (.!! r)).

Definition reassemble (a b P : nat) (ps : list image) : image :=
  flat_map (λ i, fmap (λ r, flat_map (λ j, patch_line ps (i * b + j) r) (seq 0 b))
                     (seq 0 P))
           (seq 0 a).

(** [np.concatenate], along the first axis: at least one array, all of one
    shape after that axis. *)
Definition np_concatenate (arrays : list stack) : result stack :=
  match arrays with
  | [] => Raise (ValueError "need at least one array to concatenate")
  | a :: rest =>
      if forallb (λ b, bool_decide (trailing b = trailing a)) rest
      then Ok {| trailing := trailing a;
                 patches := concat (patches <$> arrays) |}
      else Raise (ValueError "all the input array dimensions except for the concatenation axis must match exactly")
  end.

(** ** The raw-set materializer and the patch assembler *)

Section Assembler.

(** [config.PATCH_SIZE]: the module [config] is not among the sources. *)
Variable PATCH_SIZE : nat.

(** [os.mkdir(dst_path)] unless the path exists. *)
Definition ensure_dir (dst_path : path) : io unit :=
  let* e := path_exists dst_path in
  if e then ret () else mkdir dst_path.

Fixpoint raw_images_loop (orig_path dst_img_dir dst_mask_dir : path)
    (names : list string) : io unit :=
  match names with
  | [] => ret ()
  | name :: names' =>
      let img_name := name +:+ ".bmp" in
      let mask_name := name +:+ "_anno.bmp" in
      let orig_img_path := path_join orig_path img_name in
      let dst_img_path := path_join dst_img_dir img_name in
      let orig_mask_path := path_join orig_path mask_name in
      let dst_mask_path := path_join dst_mask_dir img_name in
      let* _ := copyfile orig_img_path dst_img_path in
      let* m := imread orig_mask_path in
      let* _ := imsave dst_mask_path (binarize m) in
      raw_images_loop orig_path dst_img_dir dst_mask_dir names'
  end.

Definition prepare_raw_images (orig_path dst_path : path) (names : list string)
  : io unit :=
  let* _ := ensure_dir dst_path in
  let dst_img_dir := path_join dst_path "images" in
  let dst_mask_dir := path_join dst_path "masks" in
  let* _ := mkdir dst_img_dir in
  let* _ := mkdir dst_mask_dir in
  raw_images_loop orig_path dst_img_dir dst_mask_dir names.

Fixpoint patches_loop (orig_path : path) (names : list string)
    (x y : list stack) : io (list stack * list stack) :=
  match names with
  | [] => ret (x, y)
  | name :: names' =>
      let img_name := name +:+ ".bmp" in
      let mask_name := name +:+ "_anno.bmp" in
      let* img := imread (path_join orig_path img_name) in
      let* m := imread (path_join orig_path mask_name) in
      let mask := binarize m in
      let x := x ++ [divide_image_to_patches img PATCH_SIZE] in
      let y := y ++ [divide_image_to_patches mask PATCH_SIZE] in
      patches_loop orig_path names' x y
  end.

Definition prepare_patches (orig_path dst_path : path) (names : list string)
  : io unit :=
  let* _ := ensure_dir dst_path in
  let* (x, y) := patches_loop orig_path names [] [] in
  let* images := lift (np_concatenate x) in
  let* _ := np_save (path_join dst_path "images.npy") images in
  let* masks := lift (np_concatenate y) in
  np_save (path_join dst_path "masks.npy") masks.

End Assembler.

(** ** The script

    Lines 109 to 134. [args] is what [parser.parse_args()] returns; the
    statements run in order, a [print] after each of the last four, and an
    exception ends the run with what was printed so far. *)

Record Args (float : Type) : Type := {
  dataset_path : path;
  val_size : float;
  output : path
}.
Arguments dataset_path {float} _.
Arguments val_size {float} _.
Arguments output {float} _.

Fixpoint run_stages (stages : list (io unit * list string)) (fs : FS)
  : result unit * FS * list string :=
  match stages with
  | [] => (Ok (), fs, [])
  | (m, out) :: rest =>
      match m fs with
      | (Raise e, fs') => (Raise e, fs', [])
      | (Ok _, fs') =>
          let '(r, fs'', printed) := run_stages rest fs' in
          (r, fs'', out ++ printed)
      end
  end.

Section Main.

Variables (rng float : Type).
Variable train_test_split :
  rng → list string → list nat → float → result (list string * list string).
Variable PATCH_SIZE : nat.

Definition main (rs : rng) (args : Args float) (fs : FS)
  : result unit * FS * list string :=
  match split_train_val_test rng float train_test_split rs
          (dataset_path args) (val_size args) fs with
  | (Raise e, fs') => (Raise e, fs', [])
  | (Ok (train_set, val_set, testA_set, testB_set), fs') =>
      let train_dir := path_join (output args) "train" in
      let val_dir := path_join (output args) "val" in
      let testA_dir := path_join (output args) "testA" in
      let testB_dir := path_join (output args) "testB" in
      run_stages
        [ (ensure_dir (output args), []);
          (prepare_raw_images (dataset_path args) train_dir train_set,
           ["Training data is done."]);
          (prepare_patches PATCH_SIZE (dataset_path args) val_dir val_set,
           ["Validation data is done."]);
          (prepare_raw_images (dataset_path args) testA_dir testA_set,
           ["TestA data is done."]);
          (prepare_raw_images (dataset_path args) testB_dir testB_set,
           ["TestB data is done."]) ]
        fs'
  end.

End Main.

(** ** Reading the samples, for the statements

    The image and the binarized mask of an identifier as the loops read
    them, the empty array standing for a file that cannot be read; and the
    cells of the corpus, sample by sample in the order of the list, each
    sample's cells in the order of its grid. *)

Definition image_file (name : string) : string := name +:+ ".bmp".
Definition mask_file (name : string) : string := name +:+ "_anno.bmp".

Definition read_image (fs : FS) (p : path) : image :=
  match node_at fs p with
  | Some (Bmp img) => img
  | _ => []
  end.

Definition sample_image (fs : FS) (orig_path : path) (name : string) : image :=
  read_image fs (path_join orig_path (image_file name)).

Definition sample_mask (fs : FS) (orig_path : path) (name : string) : image :=
  binarize (read_image fs (path_join orig_path (mask_file name))).

Definition readable (fs : FS) (p : path) : Prop :=
  ∃ img, node_at fs p = Some (Bmp img).

Definition corpus_cells (P : nat) (imgs : list (string * image))
  : list (string * (nat * nat)) :=
  flat_map (λ s, (λ rc, (s.1, rc)) <$> grid_cells (height s.2) (width s.2) P)
           imgs.

(** The number of patches of a sample, and the index in the corpus of the
    first patch of the sample at position [s]. *)
Definition patch_count (P : nat) (img : image) : nat :=
  (height img / P) * (width img / P).

Definition corpus_offset (P : nat) (imgs : list image) (s : nat) : nat :=
  sum_list (patch_count P <$> take s imgs).

(** ** Sample data for the examples *)

Definition mask_0_3_255 : image := [[Gray 0; Gray 3]; [Gray 255; Gray 1]].

(** A 4 by 4 grayscale image, the sample at line [r] and column [c] being
    [10 r + c]. *)
Definition img44 : image :=
  (λ r, (λ c, Gray (Z.of_nat (10 * r + c))) <$> seq 0 4) <$> seq 0 4.

(** A manifest laid out as the dataset's [Grade.csv]. *)
Definition glas_manifest : DataFrame :=
  [ ("name", ["train_1"; "train_2"; "testA_1"; "train_3"; "testB_1"; "train_4"]);
    ("patient ID", ["1"; "2"; "3"; "4"; "5"; "6"]);
    ("grade (GlaS)", ["benign"; "benign"; "malignant"; "malignant"; "benign"; "malignant"]);
    ("grade (Sirinukunwattana et al. 2015)",
     ["healthy"; "adenomatous"; "healthy"; "healthy"; "poorly differentiated"; "adenomatous"]) ].

Definition glas_fs : FS := {[ ["GlaS"; "Grade.csv"] := Csv glas_manifest ]}.

(** A splitter for the examples, with [val_size] given as a ratio
    [num / den]: the last [ceil (val_size * n)] names are held out, whatever
    the grades. *)
Definition tail_split (rs : unit) (x : list string) (y : list nat)
    (v : nat * nat) : result (list string * list string) :=
  let n_test := (v.1 * length x + v.2 - 1) / v.2 in
  Ok (take (length x - n_test) x, drop (length x - n_test) x).

(** An output directory left by an earlier run, with its two
    subdirectories. *)
Definition rerun_fs : FS :=
  {[ ["data"] := Dir; ["data"; "train"] := Dir;
     ["data"; "train"; "images"] := Dir; ["data"; "train"; "masks"] := Dir ]}.

(** Two samples, of 2 by 4 and of 2 by 2 pixels, each with a mask of its
    size. *)
Definition aligned_fs : FS :=
  {[ ["GlaS"] := Dir;
     ["GlaS"; "train_1.bmp"] :=
       Bmp [[Gray 1; Gray 2; Gray 3; Gray 4]; [Gray 5; Gray 6; Gray 7; Gray 8]];
     ["GlaS"; "train_1_anno.bmp"] :=
       Bmp [[Gray 0; Gray 0; Gray 3; Gray 3]; [Gray 0; Gray 0; Gray 3; Gray 0]];
     ["GlaS"; "train_2.bmp"] := Bmp [[Gray 11; Gray 12]; [Gray 13; Gray 14]];
     ["GlaS"; "train_2_anno.bmp"] := Bmp [[Gray 9; Gray 0]; [Gray 0; Gray 0]] ]}.

(** A sample whose mask is twice as wide as its image. *)
Definition mismatched_fs : FS :=
  {[ ["GlaS"] := Dir;
     ["GlaS"; "train_1.bmp"] := Bmp [[Gray 7; Gray 8]; [Gray 9; Gray 10]];
     ["GlaS"; "train_1_anno.bmp"] :=
       Bmp [[Gray 0; Gray 2; Gray 0; Gray 0]; [Gray 0; Gray 2; Gray 5; Gray 0]] ]}.

(** A manifest of two columns, the name and the grade. *)
Definition two_column_manifest : DataFrame :=
  [ ("name", ["train_1"; "train_2"; "testA_1"]);
    ("grade", ["benign"; "malignant"; "benign"]) ].

(** A manifest with the names in its second column. *)
Definition name_second_manifest : DataFrame :=
  [ ("patient ID", ["1"; "2"]);
    ("name", ["train_1"; "testA_1"]);
    ("grade", ["benign"; "malignant"]) ].

(** A dataset of four samples of 2 by 2 pixels with its manifest, and the
    same dataset beside the output of an earlier run. *)
Definition small_manifest : DataFrame :=
  [ ("name", ["train_1"; "train_2"; "testA_1"; "testB_1"]);
    ("patient ID", ["1"; "2"; "3"; "4"]);
    ("grade (GlaS)", ["benign"; "malignant"; "benign"; "malignant"]);
    ("grade (Sirinukunwattana et al. 2015)",
     ["healthy"; "adenomatous"; "healthy"; "adenomatous"]) ].

Definition small_image (v : Z) : node :=
  Bmp [[Gray v; Gray (v + 1)]; [Gray (v + 2); Gray (v + 3)]].

Definition small_mask (v : Z) : node :=
  Bmp [[Gray 0; Gray v]; [Gray v; Gray 0]].

Definition dataset_fs : FS :=
  {[ ["GlaS"] := Dir;
     ["GlaS"; "Grade.csv"] := Csv small_manifest;
     ["GlaS"; "train_1.bmp"] := small_image 10;
     ["GlaS"; "train_1_anno.bmp"] := small_mask 1;
     ["GlaS"; "train_2.bmp"] := small_image 20;
     ["GlaS"; "train_2_anno.bmp"] := small_mask 2;
     ["GlaS"; "testA_1.bmp"] := small_image 30;
     ["GlaS"; "testA_1_anno.bmp"] := small_mask 3;
     ["GlaS"; "testB_1.bmp"] := small_image 40;
     ["GlaS"; "testB_1_anno.bmp"] := small_mask 4 ]}.

Definition rerun_dataset_fs : FS :=
  <[ ["data"; "train"; "images"] := Dir ]>
    (<[ ["data"; "train"] := Dir ]> (<[ ["data"] := Dir ]> dataset_fs)).

Definition small_args : Args (nat * nat) :=
  {| dataset_path := ["GlaS"]; val_size := (1, 2); output := ["data"] |}.

(** * Properties *)

(** ** Runs *)

Lemma run_result {A} (r : result A * FS) (a : result A) :
  r.1 = a → r = (a, r.2).
Proof. intros <-. by destruct r. Qed.

(** ** Binarization *)

Lemma binarize_value_binary (v : Z) : binary_value (binarize_value v) = true.
Proof.
  unfold binary_value, binarize_value.
  destruct (0 <? v)%Z; apply bool_decide_eq_true; auto.
Qed.

Lemma binarize_value_fixed (v : Z) :
  binary_value v = true → binarize_value v = v.
Proof.
  unfold binary_value. intros Hv. apply bool_decide_eq_true in Hv.
  destruct Hv as [-> | ->]; reflexivity.
Qed.

Lemma binarize_pixel_binary (p : pixel) : binary_pixel (binarize_pixel p) = true.
Proof.
  destruct p as [v | cs]; csimpl.
  - apply binarize_value_binary.
  - induction cs as [| c cs IH]; csimpl; [reflexivity |].
    rewrite binarize_value_binary. exact IH.
Qed.

Lemma binarize_pixel_fixed (p : pixel) :
  binary_pixel p = true → binarize_pixel p = p.
Proof.
  destruct p as [v | cs]; csimpl.
  - intros Hv. f_equal. by apply binarize_value_fixed.
  - intros Hcs. f_equal. induction cs as [| c cs IH]; csimpl in *; [reflexivity |].
    apply andb_true_iff in Hcs as [Hc Hcs].
    rewrite (binarize_value_fixed c Hc). f_equal. by apply IH.
Qed.

Lemma binarize_binary (m : image) : is_binary (binarize m) = true.
Proof.
  unfold is_binary, binarize.
  induction m as [| row m IH]; csimpl; [reflexivity |].
  rewrite IH, andb_true_r.
  induction row as [| p row IHrow]; csimpl; [reflexivity |].
  by rewrite binarize_pixel_binary.
Qed.

Lemma binarize_fixed (m : image) : is_binary m = true → binarize m = m.
Proof.
  unfold is_binary, binarize.
  induction m as [| row m IH]; csimpl; [reflexivity |].
  intros H. apply andb_true_iff in H as [Hrow Hm].
  rewrite (IH Hm). f_equal.
  clear IH Hm. induction row as [| p row IHrow]; csimpl in *; [reflexivity |].
  apply andb_true_iff in Hrow as [Hp Hrow].
  rewrite (binarize_pixel_fixed p Hp). f_equal. by apply IHrow.
Qed.

(** C6. Binarization sends every sample above 0 to 1 and every other one
    to 0, so its output holds only 0 and 1; a mask that already holds only
    0 and 1 comes back unchanged, and binarizing any mask twice gives what
    binarizing it once gives. *)
Theorem binarize_idempotent (m : image) :
  (∀ v, binarize_value v = if decide (0 < v)%Z then 1%Z else 0%Z)
  ∧ is_binary (binarize m) = true
  ∧ (is_binary m = true → binarize m = m)
  ∧ binarize (binarize m) = binarize m.
Proof.
  split; [| split; [| split]].
  - intros v. unfold binarize_value.
    destruct (decide (0 < v)%Z) as [Hv | Hv].
    + apply Z.ltb_lt in Hv. by rewrite Hv.
    + apply Z.ltb_nlt in Hv. by rewrite Hv.
  - apply binarize_binary.
  - apply binarize_fixed.
  - apply binarize_fixed, binarize_binary.
Qed.

Lemma binarize_idempotent_witness :
  binarize mask_0_3_255 = [[Gray 0; Gray 1]; [Gray 1; Gray 1]]
  ∧ binarize (binarize mask_0_3_255) = binarize mask_0_3_255
  ∧ binarize [[Gray 0; Gray 1]; [Gray 1; Gray 1]] = [[Gray 0; Gray 1]; [Gray 1; Gray 1]].
Proof.
  split; [reflexivity |]. split.
  - apply (binarize_idempotent mask_0_3_255).
  - by apply (binarize_idempotent [[Gray 0; Gray 1]; [Gray 1; Gray 1]]).
Defined.

(** ** Lists cut into rows and cells *)

Section Grid.
Context {A B : Type}.

Lemma flat_map_ext_elem (f g : A → list B) (l : list A) :
  (∀ x, x ∈ l → f x = g x) → flat_map f l = flat_map g l.
Proof.
  induction l as [| x l IH]; intros Hfg; simpl; [reflexivity |].
  rewrite Hfg by left. rewrite IH; [reflexivity |].
  intros y Hy. apply Hfg. by right.
Qed.

Lemma map_ext_elem (f g : A → B) (l : list A) :
  (∀ x, x ∈ l → f x = g x) → f <$> l = g <$> l.
Proof.
  intros Hfg. apply list_fmap_ext. intros i x Hx. apply Hfg.
  by eapply list_elem_of_lookup_2.
Qed.

Lemma length_grid (f : nat → nat → B) (a b : nat) :
  length (flat_map (λ i, fmap (f i) (seq 0 b)) (seq 0 a)) = a * b.
Proof.
  induction a as [| a IH]; [reflexivity |].
  rewrite seq_S, flat_map_app, length_app, IH. simpl.
  rewrite app_nil_r, length_fmap, length_seq. lia.
Qed.

Lemma lookup_grid (f : nat → nat → B) (a b i j : nat) :
  i < a → j < b →
  flat_map (λ i, fmap (f i) (seq 0 b)) (seq 0 a) !! (i * b + j) = Some (f i j).
Proof.
  intros Hi Hj. induction a as [| a IH]; [lia |].
  rewrite seq_S, flat_map_app. simpl. rewrite app_nil_r.
  destruct (decide (i < a)) as [Hlt | Hge].
  - rewrite lookup_app_l by (rewrite length_grid; nia). by apply IH.
  - assert (i = a) as -> by lia.
    rewrite lookup_app_r by (rewrite length_grid; lia).
    rewrite length_grid.
    replace (a * b + j - a * b) with j by lia.
    rewrite list_lookup_fmap, lookup_seq_lt by done. reflexivity.
Qed.

Lemma flat_map_chunks (l : list A) (n b : nat) :
  length l = b * n →
  flat_map (λ j, take n (drop (j * n) l)) (seq 0 b) = l.
Proof.
  revert l. induction b as [| b IH]; intros l Hl.
  - by destruct l.
  - simpl. rewrite <- seq_shift, flat_map_concat_map, map_map, <- flat_map_concat_map.
    rewrite (flat_map_ext _ (λ j, take n (drop (j * n) (drop n l)))).
    + rewrite IH by (rewrite length_drop; lia). apply take_drop.
    + intros j. rewrite drop_drop. by do 2 f_equal.
Qed.

Lemma map_lookup_total_seq `{!Inhabited A} (l : list A) (n k : nat) :
  n + k ≤ length l →
  fmap (λ r, l !!! (n + r)) (seq 0 k) = take k (drop n l).
Proof.
  intros Hk. apply list_eq. intros r.
  rewrite list_lookup_fmap.
  destruct (decide (r < k)) as [Hr | Hr].
  - rewrite lookup_seq_lt, lookup_take_lt, lookup_drop by done. simpl.
    symmetry. apply list_lookup_lookup_total_lt. lia.
  - rewrite lookup_seq_ge, lookup_take_ge by lia. reflexivity.
Qed.

End Grid.


(** ** The grid of patches *)

Lemma crop_lookup (r0 c0 h w : nat) (img : image) (r : nat) :
  r < h →
  crop r0 c0 h w img !! r = (λ row, take w (drop c0 row)) <$> img !! (r0 + r).
Proof.
  intros Hr. unfold crop.
  by rewrite list_lookup_fmap, lookup_take_lt, lookup_drop.
Qed.

Lemma pixel_at_crop (r0 c0 h w : nat) (img : image) (r c : nat) :
  r < h → c < w →
  pixel_at (crop r0 c0 h w img) r c = pixel_at img (r0 + r) (c0 + c).
Proof.
  intros Hr Hc. unfold pixel_at. rewrite crop_lookup by done.
  destruct (img !! (r0 + r)) as [row |]; simpl; [| reflexivity].
  by rewrite lookup_take_lt, lookup_drop.
Qed.

Lemma rectangular_row (img : image) (r : nat) (row : list pixel) :
  rectangular img → img !! r = Some row → length row = width img.
Proof.
  intros Hrect Hrow. unfold rectangular in Hrect.
  rewrite Forall_lookup in Hrect. by eapply Hrect.
Qed.

Lemma patches_length (img : image) (P : nat) :
  length (patches (divide_image_to_patches img P))
  = (height img / P) * (width img / P).
Proof.
  simpl. rewrite length_fmap. unfold grid_cells. apply length_grid.
Qed.

Lemma patches_lookup (img : image) (P i j : nat) :
  i < height img / P → j < width img / P →
  patches (divide_image_to_patches img P) !! (i * (width img / P) + j)
  = Some (crop (i * P) (j * P) P P img).
Proof.
  intros Hi Hj. simpl. rewrite list_lookup_fmap. unfold grid_cells.
  by rewrite (lookup_grid (λ i j, (i * P, j * P))).
Qed.

Lemma patches_elem (img : image) (P : nat) (p : image) :
  p ∈ patches (divide_image_to_patches img P) →
  ∃ i j, i < height img / P ∧ j < width img / P
         ∧ p = crop (i * P) (j * P) P P img.
Proof.
  simpl. intros Hp. apply list_elem_of_fmap in Hp as [[r c] [-> Hrc]].
  unfold grid_cells in Hrc. apply list_elem_of_In, in_flat_map in Hrc.
  destruct Hrc as [i [Hi Hrc]]. apply list_elem_of_In in Hrc.
  apply list_elem_of_fmap in Hrc as [j [Heq Hj]].
  apply in_seq in Hi. apply elem_of_seq in Hj. exists i, j. simpl.
  inversion Heq; subst. repeat split; lia.
Qed.

Lemma cell_bound (P a i : nat) : i < a → i * P + P ≤ a * P.
Proof. nia. Qed.

Lemma crop_square (img : image) (P a b i j : nat) :
  rectangular img → height img = a * P → width img = b * P →
  i < a → j < b →
  height (crop (i * P) (j * P) P P img) = P
  ∧ Forall (λ row, length row = P) (crop (i * P) (j * P) P P img).
Proof.
  intros Hrect HH HW Hi Hj. pose proof (cell_bound P a i Hi) as Hr.
  pose proof (cell_bound P b j Hj) as Hc. split.
  - unfold height, crop in *. rewrite length_fmap, length_take, length_drop. lia.
  - unfold crop. apply Forall_fmap, Forall_forall. intros row Hrow. simpl.
    apply list_elem_of_lookup in Hrow as [r Hrow].
    apply lookup_take_Some in Hrow as [Hrow _]. rewrite lookup_drop in Hrow.
    rewrite length_take, length_drop, (rectangular_row img _ row Hrect Hrow). lia.
Qed.

Lemma reassemble_patches (img : image) (P a b : nat) :
  rectangular img → height img = a * P → width img = b * P →
  (∀ i j, i < a → j < b →
     patches (divide_image_to_patches img P) !! (i * b + j)
     = Some (crop (i * P) (j * P) P P img)) →
  reassemble a b P (patches (divide_image_to_patches img P)) = img.
Proof.
  intros Hrect HH HW Hps. unfold reassemble.
  rewrite (flat_map_ext_elem _ (λ i, take P (drop (i * P) img))).
  { by apply flat_map_chunks. }
  intros i Hi. apply elem_of_seq in Hi.
  assert (i * P + P ≤ a * P) as Hband by (apply cell_bound; lia).
  rewrite <- (map_lookup_total_seq img) by (unfold height in HH; lia).
  apply map_ext_elem. intros r Hr. apply elem_of_seq in Hr.
  destruct (lookup_lt_is_Some_2 img (i * P + r)) as [row Hrow];
    [unfold height in HH; lia |].
  rewrite (list_lookup_total_correct _ _ _ Hrow).
  rewrite (flat_map_ext_elem _ (λ j, take P (drop (j * P) row))).
  { apply flat_map_chunks. rewrite <- HW. by eapply rectangular_row. }
  intros j Hj. apply elem_of_seq in Hj. unfold patch_line.
  rewrite Hps by lia. simpl. rewrite crop_lookup by lia. by rewrite Hrow.
Qed.

Lemma cell_of_pixel (P b y x : nat) :
  0 < P → x < b * P →
  (y / P * b + x / P) / b = y / P ∧ (y / P * b + x / P) mod b = x / P.
Proof.
  intros HP Hx.
  assert (x / P < b) as Hq by (apply Nat.Div0.div_lt_upper_bound; lia).
  split.
  - symmetry. apply (Nat.div_unique _ b _ (x / P)); lia.
  - symmetry. apply (Nat.mod_unique _ b (y / P)); lia.
Qed.

(** C3. For an image whose height [a * P] and width [b * P] are multiples
    of the patch size, the decomposition yields [(H/P) * (W/P)] patches,
    each [P] by [P]; patch [k] holds the samples of the cell in row [k / b]
    and column [k mod b] of the grid; every pixel of the image lies in one
    patch and one only; and reassembling the patches row-major gives the
    image back. *)
Theorem divide_image_to_patches_tiles (img : image) (P a b : nat) :
  0 < P → rectangular img → height img = a * P → width img = b * P →
  let ps := patches (divide_image_to_patches img P) in
  length ps = (height img / P) * (width img / P)
  ∧ (∀ p, p ∈ ps → height p = P ∧ Forall (λ row, length row = P) p)
  ∧ (∀ k r c, k < a * b → r < P → c < P →
       ∃ px, ps !! k ≫= (λ p, pixel_at p r c) = Some px
             ∧ pixel_at img (k / b * P + r) (k mod b * P + c) = Some px)
  ∧ (∀ y x, y < height img → x < width img →
       ∃ k r c,
         (k < a * b ∧ r < P ∧ c < P ∧ k / b * P + r = y ∧ k mod b * P + c = x)
         ∧ ∀ k' r' c', k' < a * b → r' < P → c' < P →
             k' / b * P + r' = y → k' mod b * P + c' = x →
             k' = k ∧ r' = r ∧ c' = c)
  ∧ reassemble (height img / P) (width img / P) P ps = img.
Proof.
  intros HP Hrect HH HW ps.
  assert (height img / P = a) as Ha by (rewrite HH; apply Nat.div_mul; lia).
  assert (width img / P = b) as Hb by (rewrite HW; apply Nat.div_mul; lia).
  assert (∀ i j, i < a → j < b →
            ps !! (i * b + j) = Some (crop (i * P) (j * P) P P img)) as Hps.
  { intros i j Hi Hj. subst ps. rewrite <- Hb at 1. apply patches_lookup; lia. }
  split; [apply patches_length |].
  split.
  { intros p Hp. apply patches_elem in Hp as (i & j & Hi & Hj & ->).
    apply (crop_square img P a b); (done || lia). }
  split.
  { intros k r c Hk Hr Hc.
    assert (0 < b) as Hb0 by (destruct b; lia).
    assert (k / b < a) as Hi by (apply Nat.Div0.div_lt_upper_bound; lia).
    assert (k mod b < b) as Hj by (apply Nat.mod_upper_bound; lia).
    pose proof (Hps _ _ Hi Hj) as Hk'.
    rewrite (Nat.mul_comm (k / b) b), <- Nat.div_mod_eq in Hk'.
    rewrite Hk'. simpl. rewrite pixel_at_crop by done.
    pose proof (cell_bound P a _ Hi). pose proof (cell_bound P b _ Hj).
    destruct (lookup_lt_is_Some_2 img (k / b * P + r)) as [row Hrow];
      [unfold height in HH; lia |].
    destruct (lookup_lt_is_Some_2 row (k mod b * P + c)) as [px Hpx];
      [rewrite (rectangular_row img _ row Hrect Hrow); lia |].
    exists px. unfold pixel_at. rewrite Hrow. simpl. by rewrite Hpx. }
  split.
  { intros y x Hy Hx. rewrite HH in Hy. rewrite HW in Hx.
    destruct (cell_of_pixel P b y x HP Hx) as [Hdiv Hmod].
    assert (y / P < a) as Hi by (apply Nat.Div0.div_lt_upper_bound; lia).
    assert (x / P < b) as Hj by (apply Nat.Div0.div_lt_upper_bound; lia).
    exists (y / P * b + x / P), (y mod P), (x mod P). split.
    - rewrite Hdiv, Hmod.
      pose proof (Nat.div_mod_eq y P). pose proof (Nat.div_mod_eq x P).
      pose proof (Nat.mod_upper_bound y P). pose proof (Nat.mod_upper_bound x P).
      repeat split; nia.
    - intros k' r' c' Hk' Hr' Hc' Hy' Hx'.
      assert (k' / b = y / P) as Hq1
        by (apply (Nat.div_unique _ P _ r'); lia).
      assert (k' mod b = x / P) as Hq2
        by (apply (Nat.div_unique _ P _ c'); lia).
      pose proof (Nat.div_mod_eq k' b).
      pose proof (Nat.div_mod_eq y P). pose proof (Nat.div_mod_eq x P).
      repeat split; nia. }
  rewrite Ha, Hb. by apply reassemble_patches.
Qed.

Lemma divide_image_to_patches_tiles_witness :
  length (patches (divide_image_to_patches img44 2)) = 4
  ∧ reassemble 2 2 2 (patches (divide_image_to_patches img44 2)) = img44.
Proof.
  destruct (divide_image_to_patches_tiles img44 2 2 2) as (Hlen & _ & _ & _ & Hre).
  - lia.
  - vm_compute. repeat constructor.
  - reflexivity.
  - reflexivity.
  - split; [exact Hlen | exact Hre].
Defined.

(** ** Frames *)

Lemma getitem_Ok_elem (df : DataFrame) (l : string) (c : list string) :
  getitem df l = Ok c → (l, c) ∈ df.
Proof.
  induction df as [| [l' c'] df IH]; simpl; [discriminate |].
  case_decide as Hl.
  - intros [= ->]. subst. left.
  - intros H. right. by apply IH.
Qed.

Lemma getitem_drop_labels (labels : list string) (df : DataFrame) l c :
  getitem (drop_labels labels df) l = Ok c → l ∉ labels.
Proof.
  intros H. apply getitem_Ok_elem in H. unfold drop_labels in H.
  by apply list_elem_of_filter in H as [H _].
Qed.

Lemma getitem_select_rows (m : list bool) (df : DataFrame) l c :
  getitem df l = Ok c → getitem (select_rows m df) l = Ok (select m c).
Proof.
  induction df as [| [l' c'] df IH]; simpl; [discriminate |].
  case_decide; [by intros [= ->] | done].
Qed.

Lemma select_rows_length (m : list bool) (df : DataFrame) :
  length (select_rows m df) = length df.
Proof. unfold select_rows. apply length_fmap. Qed.

Lemma elem_of_select {A} (p : A → bool) (l : list A) (a : A) :
  a ∈ select (p <$> l) l ↔ a ∈ l ∧ p a = true.
Proof.
  induction l as [| b l IH]; csimpl.
  - split; [intros H | intros [H _]]; by apply elem_of_nil in H.
  - destruct (p b) eqn:Hb; rewrite ?elem_of_cons, IH;
      intuition (subst; congruence).
Qed.

Lemma select_sublist {A} (m : list bool) (l : list A) : select m l `sublist_of` l.
Proof.
  revert m. induction l as [| a l IH]; intros [| [] m]; simpl;
    try apply sublist_nil_l.
  - by apply sublist_skip.
  - by apply sublist_cons.
Qed.

Lemma NoDup_select {A} (m : list bool) (l : list A) :
  NoDup l → NoDup (select m l).
Proof. intros H. eapply sublist_NoDup; [done | apply select_sublist]. Qed.

(** What a run of lines 50 to 60 that raises nothing has computed. *)
Lemma read_groups_Ok (orig_path : path) (fs fs' : FS)
    (testA_set testB_set x : list string) (y : list nat) :
  read_groups orig_path fs = (Ok (testA_set, testB_set, (x, y)), fs') →
  ∃ (df : DataFrame) (name : list string) (c0 c1 : string * list string),
    node_at fs (path_join orig_path "Grade.csv") = Some (Csv df)
    ∧ fs' = fs
    ∧ getitem (drop_labels (slice 1 3 (columns df)) df) "name" = Ok name
    ∧ testA_set = select (startswith "testA_" <$> name) name
    ∧ testB_set = select (startswith "testB_" <$> name) name
    ∧ select_rows (startswith "train_" <$> name)
        (drop_labels (slice 1 3 (columns df)) df) = [c0; c1]
    ∧ x = c0.2
    ∧ y = factorize c1.2.
Proof.
  unfold read_groups, bind, lift, read_csv, ret.
  destruct (node_at fs (path_join orig_path "Grade.csv")) as [[| | | df] |] eqn:Hnode;
    try discriminate.
  set (g := drop_labels (slice 1 3 (columns df)) df).
  destruct (getitem g "name") as [name |] eqn:Hname; [| discriminate].
  rewrite !(getitem_select_rows _ g "name" name Hname).
  unfold set_columns. case_decide as Hlen; [| discriminate].
  rewrite select_rows_length in Hlen.
  destruct (select_rows (startswith "train_" <$> name) g)
    as [| c0 [| c1 [| c2 rows]]] eqn:Hrows;
    try (rewrite <- select_rows_length with (m := startswith "train_" <$> name),
           Hrows in Hlen; discriminate).
  simpl. intros [= <- <- <- <- <-].
  exists df, name, c0, c1. by repeat split.
Qed.

(** With distinct labels, dropping the labels at positions 1 and 2 leaves
    two columns only for a frame of four, and these are the first and the
    fourth. *)
Lemma drop_labels_two_columns (df : DataFrame) :
  NoDup (columns df) →
  length (drop_labels (slice 1 3 (columns df)) df) = 2 →
  ∃ c0 c1 c2 c3,
    df = [c0; c1; c2; c3]
    ∧ drop_labels (slice 1 3 (columns df)) df = [c0; c3]
    ∧ c1.1 ≠ c3.1 ∧ c2.1 ≠ c3.1.
Proof.
  unfold drop_labels, columns, slice.
  destruct df as [| c0 [| c1 [| c2 [| c3 df]]]]; csimpl; intros Hnd.
  - discriminate.
  - rewrite filter_cons_True by apply not_elem_of_nil. discriminate.
  - apply NoDup_cons in Hnd as [H0 _]. repeat rewrite not_elem_of_cons in H0.
    rewrite filter_cons_True by (rewrite !not_elem_of_cons; tauto).
    rewrite filter_cons_False by (rewrite !not_elem_of_cons; tauto).
    discriminate.
  - apply NoDup_cons in Hnd as [H0 _]. repeat rewrite not_elem_of_cons in H0.
    rewrite filter_cons_True by (rewrite !not_elem_of_cons; tauto).
    rewrite filter_cons_False by (rewrite !not_elem_of_cons; tauto).
    rewrite filter_cons_False by (rewrite !not_elem_of_cons; tauto).
    discriminate.
  - apply NoDup_cons in Hnd as [H0 Hnd]. apply NoDup_cons in Hnd as [H1 Hnd].
    apply NoDup_cons in Hnd as [H2 Hnd]. apply NoDup_cons in Hnd as [H3 Hnd].
    repeat rewrite not_elem_of_cons in H0. repeat rewrite not_elem_of_cons in H1.
    repeat rewrite not_elem_of_cons in H2.
    destruct H0 as (H01 & H02 & H03 & H0r). destruct H1 as (H12 & H13 & H1r).
    destruct H2 as (H23 & H2r).
    rewrite filter_cons_True by (rewrite !not_elem_of_cons; auto using not_elem_of_nil).
    rewrite filter_cons_False by (rewrite !not_elem_of_cons; tauto).
    rewrite filter_cons_False by (rewrite !not_elem_of_cons; tauto).
    rewrite filter_cons_True by (rewrite !not_elem_of_cons; auto using not_elem_of_nil).
    destruct df as [| c4 df].
    + intros _. exists c0, c1, c2, c3. by rewrite filter_nil.
    + csimpl in *. repeat rewrite not_elem_of_cons in H1r.
      repeat rewrite not_elem_of_cons in H2r.
      destruct H1r as [H14 _], H2r as [H24 _].
      rewrite filter_cons_True
        by (rewrite !not_elem_of_cons; repeat split;
            auto using not_elem_of_nil).
      discriminate.
Qed.

(** C8, as the code has it. With the distinct labels [pd.read_csv] gives
    the columns, a run that raises nothing has read a manifest of exactly
    four columns, and the stratification key codes the fourth one (the
    second and the third are dropped), over the rows whose name starts with
    [train_]. *)
Theorem stratify_key_fourth_column (orig_path : path) (fs fs' : FS)
    (df : DataFrame) (testA_set testB_set x : list string) (y : list nat) :
  node_at fs (path_join orig_path "Grade.csv") = Some (Csv df) →
  NoDup (columns df) →
  read_groups orig_path fs = (Ok (testA_set, testB_set, (x, y)), fs') →
  ∃ c0 c1 c2 c3 name,
    df = [c0; c1; c2; c3]
    ∧ getitem df "name" = Ok name
    ∧ y = factorize (select (startswith "train_" <$> name) c3.2).
Proof.
  intros Hnode Hnd Hrun.
  apply read_groups_Ok in Hrun
    as (df' & name & r0 & r1 & Hnode' & _ & Hname & _ & _ & Hrows & _ & ->).
  rewrite Hnode in Hnode'. injection Hnode' as <-.
  destruct (drop_labels_two_columns df Hnd) as (c0 & c1 & c2 & c3 & -> & Hg & H1 & H2).
  { rewrite <- (select_rows_length (startswith "train_" <$> name)), Hrows. reflexivity. }
  rewrite Hg in Hname, Hrows. injection Hrows as <- <-.
  exists c0, c1, c2, c3, name. split; [reflexivity |]. split; [| reflexivity].
  destruct c0 as [l0 d0], c1 as [l1 d1], c2 as [l2 d2], c3 as [l3 d3].
  simpl in *. repeat case_decide; subst; try done; congruence.
Qed.

Lemma stratify_key_fourth_column_witness :
  ∃ c0 c1 c2 c3 name,
    glas_manifest = [c0; c1; c2; c3]
    ∧ getitem glas_manifest "name" = Ok name
    ∧ [0; 1; 0; 1] = factorize (select (startswith "train_" <$> name) c3.2).
Proof.
  apply (stratify_key_fourth_column ["GlaS"] glas_fs
           (read_groups ["GlaS"] glas_fs).2 glas_manifest
           ["testA_1"] ["testB_1"] ["train_1"; "train_2"; "train_3"; "train_4"]).
  - reflexivity.
  - apply (bool_decide_unpack _). vm_compute. reflexivity.
  - apply run_result. vm_compute. reflexivity.
Defined.

(** C8, as the claim has it, fails: on a manifest laid out as the dataset's
    the key codes the fourth column, not the second (here the patient ID,
    whose codes would be 0, 1, 2, 3); and a manifest of two columns, name
    and grade, makes the split raise. *)
Lemma stratify_key_not_second_column :
  (read_groups ["GlaS"] glas_fs).1
  = Ok (["testA_1"], ["testB_1"],
        (["train_1"; "train_2"; "train_3"; "train_4"], [0; 1; 0; 1]))
  ∧ factorize (select (startswith "train_" <$> ["train_1"; "train_2"; "testA_1"; "train_3"; "testB_1"; "train_4"])
                 ["1"; "2"; "3"; "4"; "5"; "6"]) = [0; 1; 2; 3]
  ∧ (read_groups ["GlaS"] {[ ["GlaS"; "Grade.csv"] := Csv two_column_manifest ]}).1
    = Raise (ValueError "Length mismatch").
Proof. repeat split; vm_compute; reflexivity. Qed.

(** ** The groups of the splitter *)

Lemma startswith_substring (p s : string) :
  startswith p s = true → String.substring 0 (String.length p) s = p.
Proof. unfold startswith. apply String.prefix_correct. Qed.

Lemma prefixes_exclusive (s : string) :
  (startswith "train_" s = true → startswith "testA_" s = false
                                   ∧ startswith "testB_" s = false)
  ∧ (startswith "testA_" s = true → startswith "testB_" s = false).
Proof.
  split; [intros H1; split |intros H1].
  all: destruct (startswith _ s) eqn:H2 in |- *; [exfalso | reflexivity].
  all: apply startswith_substring in H1, H2; simpl in H1, H2; congruence.
Qed.

Lemma disjoint_select (p q : string → bool) (l : list string) :
  (∀ s, p s = true → q s = false) →
  no_common (select (p <$> l) l) (select (q <$> l) l).
Proof.
  intros Hpq id Hp Hq.
  apply elem_of_select in Hp as [_ Hp]. apply elem_of_select in Hq as [_ Hq].
  rewrite (Hpq id Hp) in Hq. discriminate.
Qed.

Section SplitterFacts.

Variables (rng float : Type).
Variable train_test_split :
  rng → list string → list nat → float → result (list string * list string).

(** What the script relies on of the library: the two parts it returns hold
    the elements of [x], each once. *)
Hypothesis train_test_split_partition :
  ∀ rs x y v train test,
    train_test_split rs x y v = Ok (train, test) → train ++ test ≡ₚ x.

(** C1. On a manifest whose first column holds the names, each once, the
    four groups returned are pairwise without a common identifier; train and val together hold
    exactly the names starting with [train_], testA exactly those starting
    with [testA_], testB exactly those starting with [testB_]; a name with
    none of the three prefixes is in no group. *)
Theorem split_train_val_test_groups (rs : rng) (orig_path : path)
    (val_size : float) (fs fs' : FS) (name : list string) (rest : DataFrame)
    (train_set val_set testA_set testB_set : list string) :
  node_at fs (path_join orig_path "Grade.csv") = Some (Csv (("name", name) :: rest)) →
  NoDup name →
  split_train_val_test rng float train_test_split rs orig_path val_size fs
  = (Ok (train_set, val_set, testA_set, testB_set), fs') →
  (no_common train_set val_set ∧ no_common train_set testA_set
   ∧ no_common train_set testB_set ∧ no_common val_set testA_set
   ∧ no_common val_set testB_set ∧ no_common testA_set testB_set)
  ∧ (∀ id, id ∈ train_set ∨ id ∈ val_set
           ↔ id ∈ name ∧ startswith "train_" id = true)
  ∧ (∀ id, id ∈ testA_set ↔ id ∈ name ∧ startswith "testA_" id = true)
  ∧ (∀ id, id ∈ testB_set ↔ id ∈ name ∧ startswith "testB_" id = true)
  ∧ (∀ id, startswith "train_" id = false → startswith "testA_" id = false →
           startswith "testB_" id = false →
           (id ∉ train_set) ∧ (id ∉ val_set) ∧ (id ∉ testA_set) ∧ (id ∉ testB_set)).
Proof.
  intros Hnode Hnd Hrun. unfold split_train_val_test, bind in Hrun.
  destruct (read_groups orig_path fs) as [[[[tA tB] [x y]] | e] fs1] eqn:Hgroups;
    [| discriminate].
  unfold lift in Hrun.
  destruct (train_test_split rs x y val_size) as [[tr va] |] eqn:Hsplit;
    [| discriminate].
  injection Hrun as <- <- <- <- <-.
  apply read_groups_Ok in Hgroups
    as (df & name' & c0 & c1 & Hnode' & _ & Hname & -> & -> & Hrows & -> & _).
  rewrite Hnode in Hnode'. injection Hnode' as <-.
  (* the names survive the drop, as the head of the frame *)
  pose proof (getitem_drop_labels _ _ _ _ Hname) as Hkept.
  unfold drop_labels in Hname, Hrows. rewrite filter_cons in Hname, Hrows.
  simpl in Hname, Hrows. rewrite decide_True in Hname, Hrows by done.
  simpl in Hname, Hrows.
  injection Hname as <-. injection Hrows as <- _. simpl in *.
  apply train_test_split_partition in Hsplit.
  set (pool := select (startswith "train_" <$> name) name) in *.
  assert (∀ id, id ∈ tr ∨ id ∈ va ↔ id ∈ pool) as Hpool.
  { intros id. by rewrite <- elem_of_app, Hsplit. }
  assert (NoDup (tr ++ va)) as Hnd'.
  { rewrite Hsplit. by apply NoDup_select. }
  apply NoDup_app in Hnd' as (_ & Hdisj & _).
  assert (∀ id, id ∈ pool ↔ id ∈ name ∧ startswith "train_" id = true) as Hin
    by (intros id; apply elem_of_select).
  assert (∀ (q : string) l, (∀ s, startswith "train_" s = true → startswith q s = false) →
            (∀ id, id ∈ l → id ∈ pool) →
            no_common l (select (startswith q <$> name) name)) as Hcross.
  { intros q l Hq Hl id Hid Hid'. apply Hl, Hin in Hid as [_ Hid].
    apply elem_of_select in Hid' as [_ Hid']. rewrite (Hq id Hid) in Hid'.
    discriminate. }
  split; [| split; [| split; [| split]]].
  - repeat split.
    + exact Hdisj.
    + apply Hcross; [intros s; apply prefixes_exclusive | intros id ?; apply Hpool; auto].
    + apply Hcross; [intros s; apply prefixes_exclusive | intros id ?; apply Hpool; auto].
    + apply Hcross; [intros s; apply prefixes_exclusive | intros id ?; apply Hpool; auto].
    + apply Hcross; [intros s; apply prefixes_exclusive | intros id ?; apply Hpool; auto].
    + apply disjoint_select. intros s. apply prefixes_exclusive.
  - intros id. by rewrite Hpool, Hin.
  - intros id. apply elem_of_select.
  - intros id. apply elem_of_select.
  - intros id H1 H2 H3.
    assert (id ∉ pool) as Hnot by (rewrite Hin; intros [_ ?]; congruence).
    repeat split.
    + intros ?. apply Hnot, Hpool. auto.
    + intros ?. apply Hnot, Hpool. auto.
    + intros [_ ?]%elem_of_select. congruence.
    + intros [_ ?]%elem_of_select. congruence.
Qed.

End SplitterFacts.

Lemma tail_split_partition (rs : unit) (x : list string) (y : list nat)
    (v : nat * nat) (train test : list string) :
  tail_split rs x y v = Ok (train, test) → train ++ test ≡ₚ x.
Proof. unfold tail_split. intros [= <- <-]. by rewrite take_drop. Qed.

Lemma split_train_val_test_groups_witness :
  no_common ["train_1"; "train_2"; "train_3"] ["train_4"]
  ∧ (∀ id, id ∈ ["train_1"; "train_2"; "train_3"] ∨ id ∈ ["train_4"]
           ↔ id ∈ ["train_1"; "train_2"; "testA_1"; "train_3"; "testB_1"; "train_4"]
             ∧ startswith "train_" id = true)
  ∧ (∀ id, id ∈ ["testA_1"]
           ↔ id ∈ ["train_1"; "train_2"; "testA_1"; "train_3"; "testB_1"; "train_4"]
             ∧ startswith "testA_" id = true).
Proof.
  destruct (split_train_val_test_groups unit (nat * nat) tail_split
              tail_split_partition () ["GlaS"] (1, 4) glas_fs
              (split_train_val_test unit (nat * nat) tail_split ()
                 ["GlaS"] (1, 4) glas_fs).2
              ["train_1"; "train_2"; "testA_1"; "train_3"; "testB_1"; "train_4"]
              (tail glas_manifest)
              ["train_1"; "train_2"; "train_3"] ["train_4"]
              ["testA_1"] ["testB_1"])
    as ((Hdisj & _) & Htrain & HtestA & _).
  - reflexivity.
  - apply (bool_decide_unpack _). vm_compute. reflexivity.
  - apply run_result. vm_compute. reflexivity.
  - split; [exact Hdisj | split; [exact Htrain | exact HtestA]].
Defined.

(** ** Paths and the file system *)

Lemma node_at_path_join (fs : FS) (p : path) (name : string) :
  node_at fs (path_join p name) = fs !! path_join p name.
Proof. unfold path_join. by destruct p. Qed.

Lemma dirname_path_join (p : path) (name : string) :
  dirname (path_join p name) = p.
Proof.
  unfold dirname, path_join. rewrite length_app. simpl.
  replace (length p + 1 - 1) with (length p) by lia. apply take_app_length.
Qed.

Lemma path_join_ne (p : path) (name : string) : path_join p name ≠ p.
Proof.
  unfold path_join. intros H. apply (f_equal length) in H.
  rewrite length_app in H. simpl in H. lia.
Qed.

Lemma path_join_inj (p : path) (a b : string) :
  path_join p a = path_join p b → a = b.
Proof. unfold path_join. intros H. apply app_inv_head in H. by injection H. Qed.

(** The conditional creation changes the file system only by adding the
    directory, and only when the path was free. *)
Lemma ensure_dir_cases (dst_path : path) (fs fs1 : FS) (r : result unit) :
  ensure_dir dst_path fs = (r, fs1) →
  fs1 = fs ∨ (node_at fs dst_path = None ∧ r = Ok () ∧ fs1 = <[dst_path := Dir]> fs).
Proof.
  unfold ensure_dir, bind, path_exists, mkdir, ret.
  case_bool_decide as Hdst.
  - intros [= <- <-]. by left.
  - destruct (node_at fs dst_path) as [n |] eqn:Hn; [destruct Hdst; eauto |].
    destruct (node_at fs (dirname dst_path)) as [[| | |] |];
      intros [= <- <-]; auto.
Qed.

Lemma ensure_dir_exists (dst_path : path) (fs : FS) :
  is_Some (node_at fs dst_path) → ensure_dir dst_path fs = (Ok (), fs).
Proof.
  intros H. unfold ensure_dir, bind, path_exists, ret.
  by rewrite bool_decide_eq_true_2.
Qed.

Lemma ensure_dir_child (dst_path : path) (name : string) (fs fs1 : FS)
    (r : result unit) :
  ensure_dir dst_path fs = (r, fs1) →
  fs1 !! path_join dst_path name = fs !! path_join dst_path name.
Proof.
  intros H. apply ensure_dir_cases in H as [-> | (_ & _ & ->)]; [done |].
  apply lookup_insert_ne. intros Heq. by apply (path_join_ne dst_path name).
Qed.

(** ** The patch assembler on no identifier *)

(** C10. With an empty list of identifiers the assembler raises, and writes
    neither corpus: once the destination is there, the error is the one of
    [np.concatenate] on no array. *)
Theorem prepare_patches_empty (P : nat) (orig_path dst_path : path) (fs : FS) :
  (∃ e fs', prepare_patches P orig_path dst_path [] fs = (Raise e, fs')
     ∧ fs' !! path_join dst_path "images.npy" = fs !! path_join dst_path "images.npy"
     ∧ fs' !! path_join dst_path "masks.npy" = fs !! path_join dst_path "masks.npy")
  ∧ (∀ fs1, ensure_dir dst_path fs = (Ok (), fs1) →
       prepare_patches P orig_path dst_path [] fs
       = (Raise (ValueError "need at least one array to concatenate"), fs1)).
Proof.
  unfold prepare_patches, bind.
  destruct (ensure_dir dst_path fs) as [[[] | e] fs1] eqn:Hdir; simpl.
  - split; [| by intros ? [= <-]].
    eexists _, fs1. split; [reflexivity |].
    split; by eapply ensure_dir_child.
  - split; [| intros ? [=]].
    exists e, fs1. split; [reflexivity |].
    split; by eapply ensure_dir_child.
Qed.

(** ** The raw-set materializer on a destination already filled *)

(** C9. When the destination is there and already holds [images] or
    [masks], the materializer raises [FileExistsError] at one of its two
    unguarded [os.mkdir], before any file is copied: nothing that was there
    is changed, and at most the directory [images] is added. Only the
    destination itself is created under a test: being there, it raises
    nothing. *)
Theorem prepare_raw_images_rerun (orig_path dst_path : path)
    (names : list string) (fs : FS) :
  node_at fs dst_path = Some Dir →
  is_Some (fs !! path_join dst_path "images")
  ∨ is_Some (fs !! path_join dst_path "masks") →
  ensure_dir dst_path fs = (Ok (), fs)
  ∧ ∃ fs', prepare_raw_images orig_path dst_path names fs
           = (Raise FileExistsError, fs')
      ∧ (∀ p n, fs !! p = Some n → fs' !! p = Some n)
      ∧ (∀ p, p ≠ path_join dst_path "images" → fs' !! p = fs !! p).
Proof.
  intros Hdst Hsub.
  assert (ensure_dir dst_path fs = (Ok (), fs)) as Hdir
    by (apply ensure_dir_exists; rewrite Hdst; eauto).
  split; [exact Hdir |].
  unfold prepare_raw_images, bind. rewrite Hdir. unfold mkdir at 1.
  rewrite node_at_path_join.
  destruct (fs !! path_join dst_path "images") as [n |] eqn:Himg.
  - exists fs. auto.
  - rewrite dirname_path_join, Hdst.
    destruct Hsub as [[? ?] | [n Hmask]]; [discriminate |].
    unfold mkdir. rewrite node_at_path_join.
    assert (path_join dst_path "images" ≠ path_join dst_path "masks") as Hne
      by (intros H; apply path_join_inj in H; discriminate).
    rewrite lookup_insert_ne, Hmask by done.
    eexists. split; [reflexivity |]. split.
    + intros p m Hp. rewrite lookup_insert_ne; [done |]. congruence.
    + intros p Hp. by rewrite lookup_insert_ne.
Qed.

Lemma prepare_raw_images_rerun_witness :
  ∃ fs', prepare_raw_images ["GlaS"] ["data"; "train"] ["train_1"] rerun_fs
         = (Raise FileExistsError, fs')
    ∧ (∀ p n, rerun_fs !! p = Some n → fs' !! p = Some n)
    ∧ (∀ p, p ≠ path_join ["data"; "train"] "images" → fs' !! p = rerun_fs !! p).
Proof.
  apply (prepare_raw_images_rerun ["GlaS"] ["data"; "train"] ["train_1"] rerun_fs).
  - reflexivity.
  - left. by exists Dir.
Defined.

(** ** The loop of the patch assembler *)

Lemma imread_Ok (p : path) (fs fs' : FS) (img : image) :
  imread p fs = (Ok img, fs') →
  fs' = fs ∧ node_at fs p = Some (Bmp img).
Proof.
  unfold imread. destruct (node_at fs p) as [[| | |] |]; by intros [= <- <-].
Qed.

Lemma imread_readable (p : path) (fs : FS) :
  readable fs p → imread p fs = (Ok (read_image fs p), fs).
Proof. intros [img H]. unfold imread, read_image. by rewrite H. Qed.

Lemma read_image_Bmp (fs : FS) (p : path) (img : image) :
  node_at fs p = Some (Bmp img) → read_image fs p = img.
Proof. intros H. unfold read_image. by rewrite H. Qed.

(** A run of the loop that raises nothing has read every image and mask,
    has left the file system as it was, and has appended one stack per
    identifier to each accumulator, in the order of the list. *)
Lemma patches_loop_Ok (P : nat) (orig_path : path) (names : list string)
    (x y x' y' : list stack) (fs fs' : FS) :
  patches_loop P orig_path names x y fs = (Ok (x', y'), fs') →
  fs' = fs
  ∧ Forall (λ name, readable fs (path_join orig_path (image_file name))
                    ∧ readable fs (path_join orig_path (mask_file name))) names
  ∧ x' = x ++ ((λ name, divide_image_to_patches (sample_image fs orig_path name) P)
               <$> names)
  ∧ y' = y ++ ((λ name, divide_image_to_patches (sample_mask fs orig_path name) P)
               <$> names).
Proof.
  revert x y. induction names as [| name names IH]; intros x y; simpl.
  - unfold ret. intros [= <- <- <-]. by rewrite !app_nil_r.
  - unfold bind at 1.
    destruct (imread _ fs) as [[img | e] fs1] eqn:Himg; [| discriminate].
    apply imread_Ok in Himg as [-> Himg]. unfold bind at 1.
    destruct (imread _ fs) as [[m | e] fs1] eqn:Hmask; [| discriminate].
    apply imread_Ok in Hmask as [-> Hmask].
    intros Hrun. apply IH in Hrun as (-> & Hall & -> & ->).
    split; [done |]. split.
    + constructor; [| done]. split; [by exists img | by exists m].
    + unfold sample_image, sample_mask, image_file, mask_file. csimpl.
      rewrite (read_image_Bmp _ _ _ Himg), (read_image_Bmp _ _ _ Hmask).
      by rewrite <- !app_assoc.
Qed.

Lemma patches_loop_readable (P : nat) (orig_path : path) (names : list string)
    (x y : list stack) (fs : FS) :
  Forall (λ name, readable fs (path_join orig_path (image_file name))
                  ∧ readable fs (path_join orig_path (mask_file name))) names →
  patches_loop P orig_path names x y fs
  = (Ok (x ++ ((λ name, divide_image_to_patches (sample_image fs orig_path name) P)
               <$> names),
         y ++ ((λ name, divide_image_to_patches (sample_mask fs orig_path name) P)
               <$> names)), fs).
Proof.
  revert x y. induction names as [| name names IH]; intros x y Hall; simpl.
  - by rewrite !app_nil_r.
  - apply Forall_cons in Hall as [[Himg Hmask] Hall].
    unfold bind at 1. unfold image_file in Himg. rewrite (imread_readable _ _ Himg).
    unfold bind at 1. unfold mask_file in Hmask. rewrite (imread_readable _ _ Hmask).
    rewrite IH by done. csimpl. by rewrite <- !app_assoc.
Qed.

(** ** Concatenation *)

Lemma np_concatenate_Ok (arrays : list stack) (X : stack) :
  np_concatenate arrays = Ok X →
  arrays ≠ [] ∧ patches X = concat (patches <$> arrays).
Proof.
  destruct arrays as [| a rest]; [discriminate |]. unfold np_concatenate.
  destruct (forallb _ rest); [| discriminate]. by intros [= <-].
Qed.

Lemma np_concatenate_uniform (arrays : list stack) (t : list nat) :
  arrays ≠ [] → Forall (λ b, trailing b = t) arrays →
  np_concatenate arrays
  = Ok {| trailing := t; patches := concat (patches <$> arrays) |}.
Proof.
  destruct arrays as [| a rest]; [done |]. intros _ Hall.
  apply Forall_cons in Hall as [Ha Hrest]. unfold np_concatenate.
  replace (forallb (λ b, bool_decide (trailing b = trailing a)) rest) with true.
  - by rewrite Ha.
  - symmetry. apply forallb_forall. intros b Hb.
    apply bool_decide_eq_true_2. rewrite Ha.
    rewrite Forall_forall in Hrest. apply Hrest. by apply list_elem_of_In.
Qed.

Lemma lookup_concat_take {A} (ls : list (list A)) (s k : nat) (l : list A) (a : A) :
  ls !! s = Some l → l !! k = Some a →
  concat ls !! (length (concat (take s ls)) + k) = Some a.
Proof.
  revert s. induction ls as [| l0 ls IH]; intros [| s] Hs Hk; simpl in *;
    try discriminate.
  - injection Hs as ->. by apply lookup_app_l_Some.
  - rewrite length_app, <- Nat.add_assoc, lookup_app_r by lia.
    replace (length l0 + (length (concat (take s ls)) + k) - length l0)
      with (length (concat (take s ls)) + k) by lia.
    by apply IH.
Qed.

Lemma corpus_offset_length (P : nat) (f : string → image) (names : list string)
    (s : nat) :
  length (concat (take s ((λ name, patches (divide_image_to_patches (f name) P))
                          <$> names)))
  = corpus_offset P (f <$> names) s.
Proof.
  unfold corpus_offset. revert s.
  induction names as [| name names IH]; intros [| s]; try reflexivity.
  csimpl. rewrite length_app, IH. f_equal.
  rewrite length_fmap. unfold grid_cells, patch_count. apply length_grid.
Qed.

Lemma corpus_lookup (P : nat) (f : string → image) (names : list string)
    (s i j : nat) (name : string) :
  names !! s = Some name →
  i < height (f name) / P → j < width (f name) / P →
  concat ((λ name, patches (divide_image_to_patches (f name) P)) <$> names)
    !! (corpus_offset P (f <$> names) s + (i * (width (f name) / P) + j))
  = Some (crop (i * P) (j * P) P P (f name)).
Proof.
  intros Hs Hi Hj. rewrite <- corpus_offset_length.
  apply lookup_concat_take
    with (l := patches (divide_image_to_patches (f name) P)).
  - by rewrite list_lookup_fmap, Hs.
  - by apply patches_lookup.
Qed.

Lemma corpus_by_cells (P : nat) (f : string → image) (names : list string) :
  concat ((λ name, patches (divide_image_to_patches (f name) P)) <$> names)
  = (λ c, crop c.2.1 c.2.2 P P (f c.1))
      <$> corpus_cells P ((λ name, (name, f name)) <$> names).
Proof.
  unfold corpus_cells. induction names as [| name names IH]; [reflexivity |].
  rewrite !fmap_cons. cbn [concat flat_map]. rewrite fmap_app, <- IH. f_equal.
  rewrite <- list_fmap_compose. reflexivity.
Qed.

Lemma corpus_cells_ext (P : nat) (f g : string → image) (names : list string) :
  Forall (λ name, height (g name) = height (f name)
                  ∧ width (g name) = width (f name)) names →
  corpus_cells P ((λ name, (name, g name)) <$> names)
  = corpus_cells P ((λ name, (name, f name)) <$> names).
Proof.
  unfold corpus_cells. induction 1 as [| name names [Hh Hw] _ IH]; [reflexivity |].
  csimpl. by rewrite Hh, Hw, IH.
Qed.

Lemma height_binarize (m : image) : height (binarize m) = height m.
Proof. unfold height, binarize. apply length_fmap. Qed.

Lemma width_binarize (m : image) : width (binarize m) = width m.
Proof. destruct m as [| row m]; [reflexivity |]. simpl. apply length_fmap. Qed.

(** ** A run of the patch assembler *)

Lemma node_at_insert_ne (fs : FS) (p q : path) (n : node) :
  p ≠ q → node_at (<[q := n]> fs) p = node_at fs p.
Proof. intros H. destruct p; [reflexivity |]. simpl. by apply lookup_insert_ne. Qed.

Lemma ensure_dir_read (dst_path p : path) (fs fs1 : FS) (img : image) :
  ensure_dir dst_path fs = (Ok (), fs1) →
  node_at fs1 p = Some (Bmp img) → node_at fs p = Some (Bmp img).
Proof.
  intros Hdir Hp. apply ensure_dir_cases in Hdir as [-> | (Hdst & _ & ->)]; [done |].
  destruct (decide (p = dst_path)) as [-> | Hne].
  - destruct dst_path; [discriminate |]. simpl in Hp.
    rewrite lookup_insert_eq in Hp. discriminate.
  - by rewrite node_at_insert_ne in Hp.
Qed.

Lemma write_file_Ok (p : path) (n : node) (fs fs' : FS) :
  write_file p n fs = (Ok (), fs') → fs' = <[p := n]> fs.
Proof.
  unfold write_file.
  destruct (node_at fs (dirname p)) as [[| | |] |]; try discriminate.
  destruct (node_at fs p) as [[| | |] |]; try discriminate; by intros [= <-].
Qed.

(** A run of the assembler that raises nothing has read every image and
    mask, concatenated the stacks of the images and those of the binarized
    masks, each in the order of the list, and written the two arrays. *)
Lemma prepare_patches_Ok (P : nat) (orig_path dst_path : path)
    (names : list string) (fs fs' : FS) :
  prepare_patches P orig_path dst_path names fs = (Ok (), fs') →
  ∃ fs1 X Y,
    ensure_dir dst_path fs = (Ok (), fs1)
    ∧ Forall (λ name, readable fs (path_join orig_path (image_file name))
                      ∧ readable fs (path_join orig_path (mask_file name))) names
    ∧ np_concatenate ((λ name, divide_image_to_patches
                                 (sample_image fs orig_path name) P) <$> names)
      = Ok X
    ∧ np_concatenate ((λ name, divide_image_to_patches
                                 (sample_mask fs orig_path name) P) <$> names)
      = Ok Y
    ∧ fs' = <[path_join dst_path "masks.npy" := Npy Y]>
              (<[path_join dst_path "images.npy" := Npy X]> fs1).
Proof.
  unfold prepare_patches. unfold bind at 1.
  destruct (ensure_dir dst_path fs) as [[[] | e] fs1] eqn:Hdir; [| discriminate].
  unfold bind at 1.
  destruct (patches_loop _ _ _ _ _ fs1) as [[[x y] | e] fs2] eqn:Hloop;
    [| discriminate].
  apply patches_loop_Ok in Hloop as (-> & Hall & -> & ->). simpl app.
  assert (Forall (λ name,
            (readable fs (path_join orig_path (image_file name))
             ∧ readable fs (path_join orig_path (mask_file name)))
            ∧ sample_image fs1 orig_path name = sample_image fs orig_path name
            ∧ sample_mask fs1 orig_path name = sample_mask fs orig_path name)
          names) as Hfs.
  { eapply Forall_impl; [exact Hall |]. simpl.
    intros name [[img Himg] [m Hm]].
    pose proof (ensure_dir_read _ _ _ _ _ Hdir Himg) as Himg'.
    pose proof (ensure_dir_read _ _ _ _ _ Hdir Hm) as Hm'.
    unfold sample_image, sample_mask.
    rewrite (read_image_Bmp _ _ _ Himg), (read_image_Bmp _ _ _ Himg').
    rewrite (read_image_Bmp _ _ _ Hm), (read_image_Bmp _ _ _ Hm').
    repeat split; by eexists. }
  assert ((λ name, divide_image_to_patches (sample_image fs1 orig_path name) P)
            <$> names
          = (λ name, divide_image_to_patches (sample_image fs orig_path name) P)
              <$> names) as ->.
  { apply map_ext_elem. intros name Hname. rewrite Forall_forall in Hfs.
    by destruct (Hfs name Hname) as (_ & -> & _). }
  assert ((λ name, divide_image_to_patches (sample_mask fs1 orig_path name) P)
            <$> names
          = (λ name, divide_image_to_patches (sample_mask fs orig_path name) P)
              <$> names) as ->.
  { apply map_ext_elem. intros name Hname. rewrite Forall_forall in Hfs.
    by destruct (Hfs name Hname) as (_ & _ & ->). }
  remember ((λ name, divide_image_to_patches (sample_image fs orig_path name) P)
              <$> names) as xs eqn:Hxs.
  remember ((λ name, divide_image_to_patches (sample_mask fs orig_path name) P)
              <$> names) as ys eqn:Hys.
  unfold bind at 1, lift at 1.
  destruct (np_concatenate xs) as [X | e] eqn:HX; [| discriminate].
  unfold bind at 1, np_save at 1.
  destruct (write_file _ _ fs1) as [[[] | e] fs2] eqn:Hw1; [| discriminate].
  apply write_file_Ok in Hw1 as ->.
  unfold bind at 1, lift at 1.
  destruct (np_concatenate ys) as [Y | e] eqn:HY; [| discriminate].
  unfold np_save. intros Hw2. apply write_file_Ok in Hw2 as ->.
  exists fs1, X, Y. repeat split; try done.
  eapply Forall_impl; [exact Hfs |]. by intros name [? _].
Qed.

Lemma corpora_lookup (dst_path : path) (X Y : stack) (fs1 : FS) :
  let fs' := <[path_join dst_path "masks.npy" := Npy Y]>
               (<[path_join dst_path "images.npy" := Npy X]> fs1) in
  fs' !! path_join dst_path "images.npy" = Some (Npy X)
  ∧ fs' !! path_join dst_path "masks.npy" = Some (Npy Y).
Proof.
  simpl. split.
  - rewrite lookup_insert_ne, lookup_insert_eq; [done |].
    intros H. apply path_join_inj in H. discriminate.
  - by rewrite lookup_insert_eq.
Qed.

(** ** The order of the corpora *)

(** C5. In a run of the assembler that raises nothing, each corpus is the
    concatenation, in the order of the list of identifiers, of the stacks
    of the samples: the patch of the cell at row [i] and column [j] of the
    grid of the sample at position [s] is at the index that counts the
    patches of the samples before [s], then the [i] rows of cells above,
    then the [j] cells to the left. *)
Theorem prepare_patches_order (P : nat) (orig_path dst_path : path)
    (names : list string) (fs fs' : FS) :
  prepare_patches P orig_path dst_path names fs = (Ok (), fs') →
  ∃ X Y,
    fs' !! path_join dst_path "images.npy" = Some (Npy X)
    ∧ fs' !! path_join dst_path "masks.npy" = Some (Npy Y)
    ∧ patches X
      = concat ((λ name, patches (divide_image_to_patches
                                    (sample_image fs orig_path name) P))
                <$> names)
    ∧ patches Y
      = concat ((λ name, patches (divide_image_to_patches
                                    (sample_mask fs orig_path name) P))
                <$> names)
    ∧ (∀ s name i j, names !! s = Some name →
         let img := sample_image fs orig_path name in
         i < height img / P → j < width img / P →
         patches X !! (corpus_offset P (sample_image fs orig_path <$> names) s
                       + (i * (width img / P) + j))
         = Some (crop (i * P) (j * P) P P img))
    ∧ (∀ s name i j, names !! s = Some name →
         let mask := sample_mask fs orig_path name in
         i < height mask / P → j < width mask / P →
         patches Y !! (corpus_offset P (sample_mask fs orig_path <$> names) s
                       + (i * (width mask / P) + j))
         = Some (crop (i * P) (j * P) P P mask)).
Proof.
  intros Hrun.
  apply prepare_patches_Ok in Hrun as (fs1 & X & Y & _ & _ & HX & HY & ->).
  apply np_concatenate_Ok in HX as [_ HX]. apply np_concatenate_Ok in HY as [_ HY].
  rewrite <- list_fmap_compose in HX, HY.
  exists X, Y.
  destruct (corpora_lookup dst_path X Y fs1) as [HiX HiY].
  split; [exact HiX |]. split; [exact HiY |].
  split; [exact HX |]. split; [exact HY |]. split.
  - intros s name i j Hs img Hi Hj. rewrite HX.
    by apply (corpus_lookup P (sample_image fs orig_path)).
  - intros s name i j Hs mask Hi Hj. rewrite HY.
    by apply (corpus_lookup P (sample_mask fs orig_path)).
Qed.

Lemma prepare_patches_order_witness :
  let names := ["train_1"; "train_2"] in
  let fs' := (prepare_patches 2 ["GlaS"] ["val"] names aligned_fs).2 in
  ∃ X Y,
    fs' !! path_join ["val"] "images.npy" = Some (Npy X)
    ∧ fs' !! path_join ["val"] "masks.npy" = Some (Npy Y)
    ∧ patches X
      = concat ((λ name, patches (divide_image_to_patches
                                    (sample_image aligned_fs ["GlaS"] name) 2))
                <$> names)
    ∧ patches Y
      = concat ((λ name, patches (divide_image_to_patches
                                    (sample_mask aligned_fs ["GlaS"] name) 2))
                <$> names)
    ∧ (∀ s name i j, names !! s = Some name →
         let img := sample_image aligned_fs ["GlaS"] name in
         i < height img / 2 → j < width img / 2 →
         patches X !! (corpus_offset 2 (sample_image aligned_fs ["GlaS"] <$> names) s
                       + (i * (width img / 2) + j))
         = Some (crop (i * 2) (j * 2) 2 2 img))
    ∧ (∀ s name i j, names !! s = Some name →
         let mask := sample_mask aligned_fs ["GlaS"] name in
         i < height mask / 2 → j < width mask / 2 →
         patches Y !! (corpus_offset 2 (sample_mask aligned_fs ["GlaS"] <$> names) s
                       + (i * (width mask / 2) + j))
         = Some (crop (i * 2) (j * 2) 2 2 mask)).
Proof.
  apply (prepare_patches_order 2 ["GlaS"] ["val"] ["train_1"; "train_2"]
           aligned_fs).
  apply run_result. vm_compute. reflexivity.
Defined.

(** ** The alignment of the corpora *)

(** C2, amended. In a run of the assembler that raises nothing, if the
    image and the mask of every identifier have the same height and the
    same width, the two corpora have the same number of patches, and at
    every index the patch of the images and the patch of the masks are the
    same cell of the grid of the same sample, cut from its image and from
    its binarized mask. *)
Theorem prepare_patches_aligned (P : nat) (orig_path dst_path : path)
    (names : list string) (fs fs' : FS) :
  Forall (λ name, height (sample_mask fs orig_path name)
                  = height (sample_image fs orig_path name)
                  ∧ width (sample_mask fs orig_path name)
                    = width (sample_image fs orig_path name)) names →
  prepare_patches P orig_path dst_path names fs = (Ok (), fs') →
  ∃ X Y,
    fs' !! path_join dst_path "images.npy" = Some (Npy X)
    ∧ fs' !! path_join dst_path "masks.npy" = Some (Npy Y)
    ∧ length (patches X) = length (patches Y)
    ∧ let cells := corpus_cells P ((λ name, (name, sample_image fs orig_path name))
                                   <$> names) in
      patches X
      = (λ c, crop c.2.1 c.2.2 P P (sample_image fs orig_path c.1)) <$> cells
      ∧ patches Y
        = (λ c, crop c.2.1 c.2.2 P P (sample_mask fs orig_path c.1)) <$> cells.
Proof.
  intros Hdim Hrun.
  apply prepare_patches_Ok in Hrun as (fs1 & X & Y & _ & _ & HX & HY & ->).
  apply np_concatenate_Ok in HX as [_ HX]. apply np_concatenate_Ok in HY as [_ HY].
  rewrite <- list_fmap_compose in HX, HY.
  change (patches X
          = concat ((λ name, patches (divide_image_to_patches
                                        (sample_image fs orig_path name) P))
                    <$> names)) in HX.
  change (patches Y
          = concat ((λ name, patches (divide_image_to_patches
                                        (sample_mask fs orig_path name) P))
                    <$> names)) in HY.
  rewrite (corpus_by_cells P (sample_image fs orig_path)) in HX.
  rewrite (corpus_by_cells P (sample_mask fs orig_path)) in HY.
  rewrite (corpus_cells_ext P (sample_image fs orig_path)
             (sample_mask fs orig_path)) in HY by exact Hdim.
  exists X, Y.
  destruct (corpora_lookup dst_path X Y fs1) as [HiX HiY].
  split; [exact HiX |]. split; [exact HiY |]. split.
  - by rewrite HX, HY, !length_fmap.
  - simpl. by split.
Qed.

Lemma prepare_patches_aligned_witness :
  let names := ["train_1"; "train_2"] in
  let fs' := (prepare_patches 2 ["GlaS"] ["val"] names aligned_fs).2 in
  ∃ X Y,
    fs' !! path_join ["val"] "images.npy" = Some (Npy X)
    ∧ fs' !! path_join ["val"] "masks.npy" = Some (Npy Y)
    ∧ length (patches X) = length (patches Y)
    ∧ let cells := corpus_cells 2 ((λ name, (name, sample_image aligned_fs ["GlaS"] name))
                                   <$> names) in
      patches X
      = (λ c, crop c.2.1 c.2.2 2 2 (sample_image aligned_fs ["GlaS"] c.1)) <$> cells
      ∧ patches Y
        = (λ c, crop c.2.1 c.2.2 2 2 (sample_mask aligned_fs ["GlaS"] c.1)) <$> cells.
Proof.
  apply (prepare_patches_aligned 2 ["GlaS"] ["val"] ["train_1"; "train_2"]
           aligned_fs).
  - repeat constructor.
  - apply run_result. vm_compute. reflexivity.
Defined.

(** Where the mask of a sample is twice as wide as its image, the run
    raises nothing and the corpus of the masks has two patches for the one
    of the corpus of the images: the mask patch at index 1 has no image
    patch. *)
Lemma prepare_patches_misaligned :
  let fs' := (prepare_patches 2 ["GlaS"] ["val"] ["train_1"] mismatched_fs).2 in
  prepare_patches 2 ["GlaS"] ["val"] ["train_1"] mismatched_fs = (Ok (), fs')
  ∧ fs' !! path_join ["val"] "images.npy"
    = Some (Npy {| trailing := [2; 2];
                   patches := [ [[Gray 7; Gray 8]; [Gray 9; Gray 10]] ] |})
  ∧ fs' !! path_join ["val"] "masks.npy"
    = Some (Npy {| trailing := [2; 2];
                   patches := [ [[Gray 0; Gray 1]; [Gray 0; Gray 1]];
                                [[Gray 0; Gray 0]; [Gray 1; Gray 0]] ] |}).
Proof.
  split; [apply run_result; vm_compute; reflexivity |].
  split; vm_compute; reflexivity.
Qed.

(** ** What the patch assembler requires *)

Lemma ensure_dir_Ok (dst_path : path) (fs : FS) :
  node_at fs dst_path = Some Dir
  ∨ (node_at fs dst_path = None ∧ node_at fs (dirname dst_path) = Some Dir) →
  ∃ fs1, ensure_dir dst_path fs = (Ok (), fs1)
    ∧ node_at fs1 dst_path = Some Dir
    ∧ (∀ p img, node_at fs p = Some (Bmp img) → node_at fs1 p = Some (Bmp img)).
Proof.
  intros [Hdst | [Hdst Hparent]].
  - exists fs. split; [| done]. apply ensure_dir_exists. rewrite Hdst. eauto.
  - exists (<[dst_path := Dir]> fs). split; [| split].
    + unfold ensure_dir, bind, path_exists, mkdir.
      rewrite bool_decide_eq_false_2 by (rewrite Hdst; by intros [? ?]).
      by rewrite Hdst, Hparent.
    + destruct dst_path; [done |]. simpl. apply lookup_insert_eq.
    + intros p img Hp. rewrite node_at_insert_ne; [done |]. congruence.
Qed.

Lemma write_file_free (p : path) (n : node) (fs : FS) :
  node_at fs (dirname p) = Some Dir → node_at fs p ≠ Some Dir →
  write_file p n fs = (Ok (), <[p := n]> fs).
Proof.
  intros Hparent Hp. unfold write_file. rewrite Hparent.
  by destruct (node_at fs p) as [[| | |] |].
Qed.

(** C7, amended. The assembler compares no height and no width of an image
    with those of its mask. Whatever the sizes of the images and of the
    masks, the run raises nothing and writes both corpora when the list of
    identifiers is not empty, the destination is a directory or can be
    created, every image and every mask can be read, the images have one
    channel shape and the masks one, and neither corpus file is a directory. *)
Theorem prepare_patches_no_dimension_check (P : nat) (orig_path dst_path : path)
    (names : list string) (fs : FS) (ci cm : list nat) :
  names ≠ [] →
  node_at fs dst_path = Some Dir
  ∨ (node_at fs dst_path = None ∧ node_at fs (dirname dst_path) = Some Dir) →
  Forall (λ name, readable fs (path_join orig_path (image_file name))
                  ∧ readable fs (path_join orig_path (mask_file name))) names →
  Forall (λ name, channel_shape (sample_image fs orig_path name) = ci
                  ∧ channel_shape (sample_mask fs orig_path name) = cm) names →
  fs !! path_join dst_path "images.npy" ≠ Some Dir →
  fs !! path_join dst_path "masks.npy" ≠ Some Dir →
  ∃ fs',
    prepare_patches P orig_path dst_path names fs = (Ok (), fs')
    ∧ fs' !! path_join dst_path "images.npy"
      = Some (Npy {| trailing := P :: P :: ci;
                     patches := concat ((λ name, patches (divide_image_to_patches
                                           (sample_image fs orig_path name) P))
                                        <$> names) |})
    ∧ fs' !! path_join dst_path "masks.npy"
      = Some (Npy {| trailing := P :: P :: cm;
                     patches := concat ((λ name, patches (divide_image_to_patches
                                           (sample_mask fs orig_path name) P))
                                        <$> names) |}).
Proof.
  intros Hnames Hdst Hread Hshape Himages Hmasks.
  destruct (ensure_dir_Ok dst_path fs Hdst) as (fs1 & Hdir & Hdst1 & Hkeep).
  assert (Forall (λ name,
            (readable fs1 (path_join orig_path (image_file name))
             ∧ readable fs1 (path_join orig_path (mask_file name)))
            ∧ sample_image fs1 orig_path name = sample_image fs orig_path name
            ∧ sample_mask fs1 orig_path name = sample_mask fs orig_path name)
          names) as Hfs.
  { eapply Forall_impl; [exact Hread |]. simpl.
    intros name [[img Himg] [m Hm]].
    pose proof (Hkeep _ _ Himg) as Himg'. pose proof (Hkeep _ _ Hm) as Hm'.
    unfold sample_image, sample_mask.
    rewrite (read_image_Bmp _ _ _ Himg), (read_image_Bmp _ _ _ Himg').
    rewrite (read_image_Bmp _ _ _ Hm), (read_image_Bmp _ _ _ Hm').
    repeat split; by eexists. }
  unfold prepare_patches. unfold bind at 1. rewrite Hdir.
  unfold bind at 1. rewrite patches_loop_readable
    by (eapply Forall_impl; [exact Hfs |]; by intros name [? _]).
  simpl app.
  assert ((λ name, divide_image_to_patches (sample_image fs1 orig_path name) P)
            <$> names
          = (λ name, divide_image_to_patches (sample_image fs orig_path name) P)
              <$> names) as ->.
  { apply map_ext_elem. intros name Hname. rewrite Forall_forall in Hfs.
    by destruct (Hfs name Hname) as (_ & -> & _). }
  assert ((λ name, divide_image_to_patches (sample_mask fs1 orig_path name) P)
            <$> names
          = (λ name, divide_image_to_patches (sample_mask fs orig_path name) P)
              <$> names) as ->.
  { apply map_ext_elem. intros name Hname. rewrite Forall_forall in Hfs.
    by destruct (Hfs name Hname) as (_ & _ & ->). }
  assert (∀ f : string → stack, f <$> names ≠ []) as Hne
    by (intros f H; by apply fmap_nil_inv in H).
  unfold bind at 1, lift at 1.
  rewrite (np_concatenate_uniform _ (P :: P :: ci)); [| apply Hne |].
  2: { apply Forall_fmap. eapply Forall_impl; [exact Hshape |].
       intros name [Hi _]. simpl. by rewrite Hi. }
  unfold bind at 1, np_save at 1.
  rewrite write_file_free.
  2: { by rewrite dirname_path_join. }
  2: { rewrite node_at_path_join.
       by rewrite (ensure_dir_child _ _ _ _ _ Hdir). }
  unfold bind at 1, lift at 1.
  rewrite (np_concatenate_uniform _ (P :: P :: cm)); [| apply Hne |].
  2: { apply Forall_fmap. eapply Forall_impl; [exact Hshape |].
       intros name [_ Hm]. simpl. by rewrite Hm. }
  assert (path_join dst_path "masks.npy" ≠ path_join dst_path "images.npy") as Hpaths
    by (intros H; apply path_join_inj in H; discriminate).
  unfold np_save. rewrite write_file_free.
  2: { rewrite dirname_path_join, node_at_insert_ne; [done |].
       intros H. symmetry in H. by apply path_join_ne in H. }
  2: { rewrite node_at_path_join, lookup_insert_ne by done.
       by rewrite (ensure_dir_child _ _ _ _ _ Hdir). }
  eexists. split; [reflexivity |].
  rewrite <- !list_fmap_compose. split.
  - by rewrite lookup_insert_ne, lookup_insert_eq.
  - by rewrite lookup_insert_eq.
Qed.

Lemma prepare_patches_no_dimension_check_witness :
  ∃ fs',
    prepare_patches 2 ["GlaS"] ["val"] ["train_1"] mismatched_fs = (Ok (), fs')
    ∧ fs' !! path_join ["val"] "images.npy"
      = Some (Npy {| trailing := [2; 2];
                     patches := concat ((λ name, patches (divide_image_to_patches
                                           (sample_image mismatched_fs ["GlaS"] name) 2))
                                        <$> ["train_1"]) |})
    ∧ fs' !! path_join ["val"] "masks.npy"
      = Some (Npy {| trailing := [2; 2];
                     patches := concat ((λ name, patches (divide_image_to_patches
                                           (sample_mask mismatched_fs ["GlaS"] name) 2))
                                        <$> ["train_1"]) |}).
Proof.
  apply (prepare_patches_no_dimension_check 2 ["GlaS"] ["val"] ["train_1"]
           mismatched_fs [] []).
  - discriminate.
  - right. split; reflexivity.
  - repeat constructor; eexists; reflexivity.
  - repeat constructor.
  - vm_compute. discriminate.
  - vm_compute. discriminate.
Defined.

(** The image of the sample is 2 by 2 and its mask 2 by 4: the run raises
    nothing and writes both corpora. *)
Lemma prepare_patches_accepts_mismatch :
  width (sample_image mismatched_fs ["GlaS"] "train_1") = 2
  ∧ width (sample_mask mismatched_fs ["GlaS"] "train_1") = 4
  ∧ (prepare_patches 2 ["GlaS"] ["val"] ["train_1"] mismatched_fs).1 = Ok ()
  ∧ is_Some ((prepare_patches 2 ["GlaS"] ["val"] ["train_1"] mismatched_fs).2
               !! path_join ["val"] "images.npy")
  ∧ is_Some ((prepare_patches 2 ["GlaS"] ["val"] ["train_1"] mismatched_fs).2
               !! path_join ["val"] "masks.npy").
Proof.
  split; [reflexivity |]. split; [reflexivity |].
  split; [vm_compute; reflexivity |].
  split; vm_compute; eauto.
Qed.

(** ** The splitter: effects and errors *)

Section SplitterEffects.

Variables (rng float : Type).
Variable train_test_split :
  rng → list string → list nat → float → result (list string * list string).

Lemma read_groups_reads_only (orig_path : path) (fs fs' : FS)
    (r : result (list string * list string * (list string * list nat))) :
  read_groups orig_path fs = (r, fs') → fs' = fs.
Proof.
  unfold read_groups, bind, lift, read_csv, ret.
  repeat case_match; simplify_eq; congruence.
Qed.

Lemma split_train_val_test_same (rs : rng) (orig_path : path)
    (v : float) (fs fs' : FS)
    (r : result (list string * list string * list string * list string)) :
  split_train_val_test rng float train_test_split rs orig_path v fs = (r, fs') →
  fs' = fs.
Proof.
  unfold split_train_val_test. unfold bind at 1.
  destruct (read_groups orig_path fs) as [[[[tA tB] [x y]] | e] fs1] eqn:Hgroups;
    apply read_groups_reads_only in Hgroups as ->.
  - unfold bind, lift, ret. repeat case_match; simplify_eq; congruence.
  - congruence.
Qed.

(** The splitter only reads: whatever it returns or raises, the file system
    is as it was. *)
Theorem split_train_val_test_reads_only (rs : rng) (orig_path : path)
    (v : float) (fs fs' : FS)
    (r : result (list string * list string * list string * list string)) :
  split_train_val_test rng float train_test_split rs orig_path v fs = (r, fs') →
  fs' = fs.
Proof. apply split_train_val_test_same. Qed.

(** Without [Grade.csv] in the dataset directory the splitter raises
    [FileNotFoundError], before the library is called. *)
Theorem split_train_val_test_missing_manifest (rs : rng) (orig_path : path)
    (v : float) (fs : FS) :
  node_at fs (path_join orig_path "Grade.csv") = None →
  split_train_val_test rng float train_test_split rs orig_path v fs
  = (Raise FileNotFoundError, fs).
Proof.
  intros Hnode. unfold split_train_val_test, read_groups, read_csv.
  unfold bind at 1. unfold bind at 1. by rewrite Hnode.
Qed.

End SplitterEffects.

(** ** Columns that are not there *)

Lemma getitem_drop_missing (labels : list string) (df : DataFrame) (label : string) :
  label ∉ columns df ∨ label ∈ labels →
  getitem (drop_labels labels df) label = Raise (KeyError label).
Proof.
  unfold drop_labels, columns. induction df as [| [l c] df IH]; intros H; [done |].
  assert (label ∉ df.*1 ∨ label ∈ labels) as H'.
  { destruct H as [H | H]; [left | by right].
    intros Hin. apply H. csimpl. by right. }
  destruct (decide (l ∈ labels)) as [Hl | Hl].
  - rewrite filter_cons_False by (simpl; tauto). by apply IH.
  - rewrite filter_cons_True by done. simpl.
    case_decide as Heq; [| by apply IH]. subst l.
    destruct H as [H | H]; [| done]. destruct H. csimpl. by left.
Qed.

(** ** The codes of the grades *)

Lemma index_of_Some (s : string) (l : list string) (i : nat) :
  index_of s l = Some i → l !! i = Some s.
Proof.
  revert i. induction l as [| t l IH]; intros i; simpl; [done |].
  case_decide as Heq; [by intros [= <-]; subst |].
  destruct (index_of s l) as [k |]; [| done]. intros [= <-]. by apply IH.
Qed.

Lemma index_of_None (s : string) (l : list string) :
  index_of s l = None → s ∉ l.
Proof.
  induction l as [| t l IH]; simpl; [intros _; apply not_elem_of_nil |].
  case_decide as Heq; [done |].
  destruct (index_of s l) as [k |]; [done |]. intros _.
  apply not_elem_of_cons. split; [congruence | by apply IH].
Qed.

Lemma length_factorize_from (u l : list string) :
  length (factorize_from u l) = length l.
Proof.
  revert u. induction l as [| s l IH]; intros u; simpl; [done |].
  destruct (index_of s u); simpl; by rewrite IH.
Qed.

(** The codes are positions in a table of distinct values that starts with
    the values already seen. *)
Lemma factorize_from_table (u l : list string) :
  NoDup u →
  ∃ u', NoDup (u ++ u')
    ∧ ∀ i s, l !! i = Some s →
        ∃ c, factorize_from u l !! i = Some c ∧ (u ++ u') !! c = Some s.
Proof.
  revert u. induction l as [| s l IH]; intros u Hu.
  - exists []. rewrite app_nil_r. split; [done |]. intros i s; by destruct i.
  - simpl. destruct (index_of s u) as [k |] eqn:Hk.
    + destruct (IH u Hu) as (u' & Hnd & Hcodes). exists u'. split; [done |].
      intros [| i] t Ht; simpl in *.
      * injection Ht as <-. exists k. split; [done |].
        apply lookup_app_l_Some. by apply index_of_Some.
      * by apply Hcodes.
    + apply index_of_None in Hk.
      assert (NoDup (u ++ [s])) as Hus.
      { apply NoDup_app. split; [done |]. split; [| apply NoDup_singleton].
        intros t Ht Hts. apply list_elem_of_singleton in Hts. by subst. }
      destruct (IH (u ++ [s]) Hus) as (u' & Hnd & Hcodes).
      exists (s :: u'). rewrite <- app_assoc in Hnd, Hcodes. simpl in Hnd, Hcodes.
      split; [done |].
      intros [| i] t Ht; simpl in *.
      * injection Ht as <-. exists (length u). split; [done |].
        apply list_lookup_middle. done.
      * by apply Hcodes.
Qed.

(** [pd.factorize] gives one code a row, and two rows the same code exactly
    when they hold the same value: the classes of the stratification are
    the grades. *)
Theorem factorize_classes (l : list string) :
  length (factorize l) = length l
  ∧ ∀ i j a b, l !! i = Some a → l !! j = Some b →
      (factorize l !! i = factorize l !! j ↔ a = b).
Proof.
  split; [apply length_factorize_from |].
  intros i j a b Ha Hb. unfold factorize.
  destruct (factorize_from_table [] l (NoDup_nil_2)) as (u & Hnd & Hcodes).
  destruct (Hcodes i a Ha) as (ci & Hci & Hua).
  destruct (Hcodes j b Hb) as (cj & Hcj & Hub).
  rewrite Hci, Hcj. simpl in *. split.
  - intros [= ->]. congruence.
  - intros ->. f_equal. by eapply NoDup_lookup.
Qed.

Lemma select_zip {A B} (m : list bool) (a : list A) (b : list B) :
  select m (zip a b) = zip (select m a) (select m b).
Proof.
  revert a b. induction m as [| [|] m IH]; intros [| x a] [| y b]; simpl;
    try done; try (by rewrite IH); by destruct (select m a).
Qed.

Lemma select_filter {A B} (p : A → bool) (a : list A) (b : list B) :
  select (p <$> a) (zip a b) = filter (λ r, p r.1 = true) (zip a b).
Proof.
  revert b. induction a as [| x a IH]; intros [| y b]; csimpl; try done.
  destruct (p x) eqn:Hp.
  - rewrite filter_cons_True by done. by rewrite IH.
  - rewrite filter_cons_False by (simpl; congruence). apply IH.
Qed.

Lemma select_length_eq {A B} (m : list bool) (a : list A) (b : list B) :
  length a = length b → length (select m a) = length (select m b).
Proof.
  revert a b. induction m as [| [|] m IH]; intros [| x a] [| y b] Hlen; simpl;
    try done; simpl in Hlen; auto.
Qed.

(** ** What the splitter asks of the library *)

Section SplitterCall.

Variables (rng float : Type).
Variable train_test_split :
  rng → list string → list nat → float → result (list string * list string).

(** A manifest whose columns, once the second and the third are dropped,
    have none labelled [name] makes the splitter raise [KeyError]. *)
Theorem split_train_val_test_no_name (rs : rng) (orig_path : path) (v : float)
    (fs : FS) (df : DataFrame) :
  node_at fs (path_join orig_path "Grade.csv") = Some (Csv df) →
  "name" ∉ columns df ∨ "name" ∈ slice 1 3 (columns df) →
  split_train_val_test rng float train_test_split rs orig_path v fs
  = (Raise (KeyError "name"), fs).
Proof.
  intros Hnode Hname. unfold split_train_val_test, read_groups, read_csv.
  unfold bind at 1. unfold bind at 1. rewrite Hnode.
  unfold bind at 1, lift at 1. by rewrite getitem_drop_missing.
Qed.

(** On a manifest of the dataset's layout, a split that raises nothing
    returns as train and val what the library returns for the names
    starting with [train_], in the order of the manifest, each with the
    code of its grade in the fourth column, and [val_size] as the size of
    the test part. *)
Theorem split_train_val_test_call (rs : rng) (orig_path : path) (v : float)
    (fs fs' : FS) (name grades : list string) (c1 c2 : string * list string)
    (l3 : string) (train_set val_set testA_set testB_set : list string) :
  node_at fs (path_join orig_path "Grade.csv")
  = Some (Csv [("name", name); c1; c2; (l3, grades)]) →
  NoDup ["name"; c1.1; c2.1; l3] →
  length grades = length name →
  split_train_val_test rng float train_test_split rs orig_path v fs
  = (Ok (train_set, val_set, testA_set, testB_set), fs') →
  ∃ x g,
    train_test_split rs x (factorize g) v = Ok (train_set, val_set)
    ∧ length (factorize g) = length x
    ∧ zip x g = filter (λ r, startswith "train_" r.1 = true) (zip name grades).
Proof.
  intros Hnode Hnd Hlen Hrun. unfold split_train_val_test, bind in Hrun.
  destruct (read_groups orig_path fs) as [[[[tA tB] [x y]] | e] fs1] eqn:Hgroups;
    [| discriminate].
  unfold lift in Hrun.
  destruct (train_test_split rs x y v) as [[tr va] |] eqn:Hsplit; [| discriminate].
  injection Hrun as <- <- <- <- <-.
  apply read_groups_Ok in Hgroups
    as (df & name' & r0 & r1 & Hnode' & _ & Hname & _ & _ & Hrows & Hx & Hy).
  rewrite Hnode in Hnode'. injection Hnode' as <-.
  destruct (drop_labels_two_columns [("name", name); c1; c2; (l3, grades)])
    as (e0 & e1 & e2 & e3 & Hdf & Hg & _); [exact Hnd | |].
  { rewrite <- (select_rows_length (startswith "train_" <$> name')), Hrows.
    reflexivity. }
  injection Hdf as <- <- <- <-. rewrite Hg in Hname, Hrows.
  simpl in Hname. injection Hname as <-.
  injection Hrows as <- <-. simpl in Hx, Hy. subst x y.
  exists (select (startswith "train_" <$> name) name),
         (select (startswith "train_" <$> name) grades).
  split; [exact Hsplit |]. split.
  - unfold factorize. rewrite length_factorize_from. symmetry.
    by apply select_length_eq.
  - by rewrite <- select_zip, select_filter.
Qed.

End SplitterCall.

Lemma split_train_val_test_reads_only_witness :
  (split_train_val_test unit (nat * nat) tail_split () ["GlaS"] (1, 4) glas_fs).2
  = glas_fs.
Proof.
  apply (split_train_val_test_reads_only unit (nat * nat) tail_split ()
           ["GlaS"] (1, 4) glas_fs _
           (split_train_val_test unit (nat * nat) tail_split ()
              ["GlaS"] (1, 4) glas_fs).1).
  apply surjective_pairing.
Defined.

Lemma split_train_val_test_missing_manifest_witness :
  split_train_val_test unit (nat * nat) tail_split () ["GlaS"] (1, 4) rerun_fs
  = (Raise FileNotFoundError, rerun_fs).
Proof.
  apply (split_train_val_test_missing_manifest unit (nat * nat) tail_split ()
           ["GlaS"] (1, 4) rerun_fs).
  reflexivity.
Defined.

Lemma split_train_val_test_no_name_witness :
  let fs : FS := {[ ["GlaS"; "Grade.csv"] := Csv name_second_manifest ]} in
  split_train_val_test unit (nat * nat) tail_split () ["GlaS"] (1, 4) fs
  = (Raise (KeyError "name"), fs).
Proof.
  apply (split_train_val_test_no_name unit (nat * nat) tail_split ()
           ["GlaS"] (1, 4) _ name_second_manifest).
  - reflexivity.
  - right. vm_compute. apply list_elem_of_here.
Defined.

Lemma split_train_val_test_call_witness :
  ∃ x g,
    tail_split () x (factorize g) (1, 4)
    = Ok (["train_1"; "train_2"; "train_3"], ["train_4"])
    ∧ length (factorize g) = length x
    ∧ zip x g
      = filter (λ r, startswith "train_" r.1 = true)
          (zip ["train_1"; "train_2"; "testA_1"; "train_3"; "testB_1"; "train_4"]
               ["healthy"; "adenomatous"; "healthy"; "healthy";
                "poorly differentiated"; "adenomatous"]).
Proof.
  apply (split_train_val_test_call unit (nat * nat) tail_split ()
           ["GlaS"] (1, 4) glas_fs
           (split_train_val_test unit (nat * nat) tail_split ()
              ["GlaS"] (1, 4) glas_fs).2
           _ _ ("patient ID", ["1"; "2"; "3"; "4"; "5"; "6"])
           ("grade (GlaS)",
            ["benign"; "benign"; "malignant"; "malignant"; "benign"; "malignant"])
           "grade (Sirinukunwattana et al. 2015)"
           ["train_1"; "train_2"; "train_3"] ["train_4"] ["testA_1"] ["testB_1"]).
  - reflexivity.
  - apply (bool_decide_unpack _). vm_compute. reflexivity.
  - reflexivity.
  - apply run_result. vm_compute. reflexivity.
Defined.

(** ** What one step writes *)

Lemma write_file_off (p q : path) (n : node) (fs fs' : FS) (r : result unit) :
  write_file p n fs = (r, fs') → q ≠ p → fs' !! q = fs !! q.
Proof.
  unfold write_file. intros Hrun Hq.
  repeat case_match; simplify_eq; by rewrite ?lookup_insert_ne.
Qed.

Lemma mkdir_off (p q : path) (fs fs' : FS) (r : result unit) :
  mkdir p fs = (r, fs') → q ≠ p → fs' !! q = fs !! q.
Proof.
  unfold mkdir. intros Hrun Hq.
  repeat case_match; simplify_eq; by rewrite ?lookup_insert_ne.
Qed.

Lemma copyfile_off (src dst q : path) (fs fs' : FS) (r : result unit) :
  copyfile src dst fs = (r, fs') → q ≠ dst → fs' !! q = fs !! q.
Proof.
  unfold copyfile. intros Hrun Hq.
  repeat case_match; simplify_eq; try done; by eapply write_file_off.
Qed.

Lemma imread_same {p : path} {fs fs' : FS} {r : result image} :
  imread p fs = (r, fs') → fs' = fs.
Proof. unfold imread. intros Hrun. by repeat case_match; simplify_eq. Qed.

Lemma ensure_dir_off (dst_path q : path) (fs fs' : FS) (r : result unit) :
  ensure_dir dst_path fs = (r, fs') → q ≠ dst_path → fs' !! q = fs !! q.
Proof.
  intros Hrun Hq. apply ensure_dir_cases in Hrun as [-> | (_ & _ & ->)]; [done |].
  by rewrite lookup_insert_ne.
Qed.

Lemma dirname_ne (d q : path) (name : string) :
  dirname q ≠ d → q ≠ path_join d name.
Proof. intros H ->. by rewrite dirname_path_join in H. Qed.

Lemma patches_loop_same (P : nat) (orig_path : path) (names : list string)
    (x y : list stack) (fs fs' : FS) (r : result (list stack * list stack)) :
  patches_loop P orig_path names x y fs = (r, fs') → fs' = fs.
Proof.
  revert x y. induction names as [| name names IH]; intros x y; simpl.
  - by intros [= <- <-].
  - unfold bind at 1.
    destruct (imread _ fs) as [[img | e] fs1] eqn:Himg;
      rewrite (imread_same Himg); [| by intros [= <- <-]].
    unfold bind at 1.
    destruct (imread (path_join orig_path (name +:+ "_anno.bmp")) fs)
      as [[m | e] fs2] eqn:Hmask;
      rewrite (imread_same Hmask); [| by intros [= <- <-]].
    apply IH.
Qed.

(** ** What the two functions leave alone *)

Lemma raw_images_loop_off (orig_path di dm : path) (names : list string)
    (fs fs' : FS) (r : result unit) (p : path) :
  raw_images_loop orig_path di dm names fs = (r, fs') →
  dirname p ≠ di → dirname p ≠ dm → fs' !! p = fs !! p.
Proof.
  intros Hrun Hdi Hdm. revert fs Hrun.
  induction names as [| name names IH]; intros fs; simpl.
  - by intros [= <- <-].
  - unfold bind at 1.
    destruct (copyfile _ _ fs) as [[[] | e] fs4] eqn:Hcopy;
      pose proof (copyfile_off _ _ p _ _ _ Hcopy (dirname_ne _ _ _ Hdi)) as <-;
      [| by intros [= <- <-]].
    unfold bind at 1.
    destruct (imread _ fs4) as [[m | e] fs5] eqn:Hread;
      rewrite (imread_same Hread); [| by intros [= <- <-]].
    unfold bind at 1.
    destruct (imsave _ _ fs4) as [[[] | e] fs6] eqn:Hsave;
      pose proof (write_file_off _ p _ _ _ _ Hsave (dirname_ne _ _ _ Hdm)) as <-;
      [| by intros [= <- <-]].
    apply IH.
Qed.

Lemma prepare_raw_images_off (orig_path dst_path : path)
    (names : list string) (fs fs' : FS) (r : result unit) (p : path) :
  prepare_raw_images orig_path dst_path names fs = (r, fs') →
  p ≠ dst_path →
  p ≠ path_join dst_path "images" → p ≠ path_join dst_path "masks" →
  dirname p ≠ path_join dst_path "images" →
  dirname p ≠ path_join dst_path "masks" →
  fs' !! p = fs !! p.
Proof.
  intros Hrun Hdst Himages Hmasks Hdi Hdm. revert Hrun.
  unfold prepare_raw_images. unfold bind at 1.
  destruct (ensure_dir dst_path fs) as [[[] | e] fs1] eqn:Hdir;
    pose proof (ensure_dir_off _ p _ _ _ Hdir Hdst) as <-;
    [| by intros [= <- <-]].
  unfold bind at 1.
  destruct (mkdir _ fs1) as [[[] | e] fs2] eqn:Hmk1;
    pose proof (mkdir_off _ p _ _ _ Hmk1 Himages) as <-;
    [| by intros [= <- <-]].
  unfold bind at 1.
  destruct (mkdir _ fs2) as [[[] | e] fs3] eqn:Hmk2;
    pose proof (mkdir_off _ p _ _ _ Hmk2 Hmasks) as <-;
    [| by intros [= <- <-]].
  intros Hloop. by apply (raw_images_loop_off _ _ _ _ _ _ _ _ Hloop).
Qed.

(** Whatever it returns or raises, the materializer changes nothing but the
    destination, its directories [images] and [masks], and the files in
    these two. *)
Theorem prepare_raw_images_writes_only (orig_path dst_path : path)
    (names : list string) (fs fs' : FS) (r : result unit) (p : path) :
  prepare_raw_images orig_path dst_path names fs = (r, fs') →
  p ≠ dst_path →
  p ≠ path_join dst_path "images" → p ≠ path_join dst_path "masks" →
  dirname p ≠ path_join dst_path "images" →
  dirname p ≠ path_join dst_path "masks" →
  fs' !! p = fs !! p.
Proof. apply prepare_raw_images_off. Qed.

Lemma prepare_patches_off (P : nat) (orig_path dst_path : path)
    (names : list string) (fs fs' : FS) (r : result unit) (p : path) :
  prepare_patches P orig_path dst_path names fs = (r, fs') →
  p ≠ dst_path →
  p ≠ path_join dst_path "images.npy" → p ≠ path_join dst_path "masks.npy" →
  fs' !! p = fs !! p.
Proof.
  intros Hrun Hdst Himages Hmasks. revert Hrun.
  unfold prepare_patches. unfold bind at 1.
  destruct (ensure_dir dst_path fs) as [[[] | e] fs1] eqn:Hdir;
    pose proof (ensure_dir_off _ p _ _ _ Hdir Hdst) as <-;
    [| by intros [= <- <-]].
  unfold bind at 1.
  destruct (patches_loop _ _ _ _ _ fs1) as [[[x y] | e] fs2] eqn:Hloop;
    apply patches_loop_same in Hloop as ->; [| by intros [= <- <-]].
  unfold bind at 1, lift at 1.
  destruct (np_concatenate x) as [X | e]; [| by intros [= <- <-]].
  unfold bind at 1.
  destruct (np_save _ X fs1) as [[[] | e] fs3] eqn:Hsave1;
    pose proof (write_file_off _ p _ _ _ _ Hsave1 Himages) as <-;
    [| by intros [= <- <-]].
  unfold bind at 1, lift at 1.
  destruct (np_concatenate y) as [Y | e]; [| by intros [= <- <-]].
  intros Hsave2. by apply (write_file_off _ p _ _ _ _ Hsave2 Hmasks).
Qed.

(** Whatever it returns or raises, the assembler changes nothing but the
    destination and the two corpus files. *)
Theorem prepare_patches_writes_only (P : nat) (orig_path dst_path : path)
    (names : list string) (fs fs' : FS) (r : result unit) (p : path) :
  prepare_patches P orig_path dst_path names fs = (r, fs') →
  p ≠ dst_path →
  p ≠ path_join dst_path "images.npy" → p ≠ path_join dst_path "masks.npy" →
  fs' !! p = fs !! p.
Proof. apply prepare_patches_off. Qed.

Lemma prepare_raw_images_writes_only_witness :
  (prepare_raw_images ["GlaS"] ["train"] ["train_1"; "train_2"] aligned_fs).2
    !! ["GlaS"; "train_1_anno.bmp"]
  = aligned_fs !! ["GlaS"; "train_1_anno.bmp"].
Proof.
  apply (prepare_raw_images_writes_only ["GlaS"] ["train"] ["train_1"; "train_2"]
           aligned_fs _
           (prepare_raw_images ["GlaS"] ["train"] ["train_1"; "train_2"]
              aligned_fs).1).
  - apply surjective_pairing.
  - discriminate.
  - discriminate.
  - discriminate.
  - vm_compute. discriminate.
  - vm_compute. discriminate.
Defined.

Lemma prepare_patches_writes_only_witness :
  (prepare_patches 2 ["GlaS"] ["val"] ["train_1"; "train_2"] aligned_fs).2
    !! ["GlaS"; "train_1.bmp"]
  = aligned_fs !! ["GlaS"; "train_1.bmp"].
Proof.
  apply (prepare_patches_writes_only 2 ["GlaS"] ["val"] ["train_1"; "train_2"]
           aligned_fs _
           (prepare_patches 2 ["GlaS"] ["val"] ["train_1"; "train_2"]
              aligned_fs).1).
  - apply surjective_pairing.
  - discriminate.
  - discriminate.
  - discriminate.
Defined.

(** ** What the materializer stores *)

Lemma append_inj_r (s s' t : string) : s +:+ t = s' +:+ t → s = s'.
Proof.
  assert (∀ a b : string, String.length (a +:+ b)
                          = String.length a + String.length b) as Hlen.
  { intros a b. induction a as [| c a IH]; simpl; [done | by rewrite IH]. }
  revert s'. induction s as [| c s IH]; intros [| c' s'] H; simpl in H.
  - done.
  - apply (f_equal String.length) in H. rewrite !Hlen in H. simpl in H. lia.
  - apply (f_equal String.length) in H. rewrite !Hlen in H. simpl in H. lia.
  - injection H as -> H. f_equal. by apply IH.
Qed.

Lemma path_join_inj2 (p q : path) (a b : string) :
  path_join p a = path_join q b → p = q ∧ a = b.
Proof. unfold path_join. intros H. apply app_inj_tail in H. naive_solver. Qed.

Lemma copyfile_Ok (src dst : path) (fs fs' : FS) :
  copyfile src dst fs = (Ok (), fs') →
  ∃ n, node_at fs src = Some n ∧ n ≠ Dir ∧ fs' = <[dst := n]> fs.
Proof.
  unfold copyfile. intros Hrun.
  repeat case_match; simplify_eq;
    (eexists; split; [done |]; split; [done |]; by eapply write_file_Ok).
Qed.

(** A run of the loop that raises nothing leaves, for every identifier, the
    node of its image in the directory of the images and its binarized
    mask in the directory of the masks, both under the file name of the
    image, and changes no other path. *)
Lemma raw_images_loop_Ok (orig_path di dm : path) (names : list string)
    (fs fs' : FS) :
  orig_path ≠ di → orig_path ≠ dm → di ≠ dm →
  raw_images_loop orig_path di dm names fs = (Ok (), fs') →
  (∀ name, name ∈ names →
     ∃ n m,
       fs !! path_join orig_path (image_file name) = Some n ∧ n ≠ Dir
       ∧ fs !! path_join orig_path (mask_file name) = Some (Bmp m)
       ∧ fs' !! path_join di (image_file name) = Some n
       ∧ fs' !! path_join dm (image_file name) = Some (Bmp (binarize m)))
  ∧ (∀ p, (∀ name, name ∈ names →
             p ≠ path_join di (image_file name)
             ∧ p ≠ path_join dm (image_file name)) →
          fs' !! p = fs !! p).
Proof.
  intros Hdi Hdm Hdd. revert fs.
  induction names as [| name names IH]; intros fs; simpl.
  - intros [= <-]. split; [intros name Hin; by apply elem_of_nil in Hin | done].
  - unfold bind at 1.
    destruct (copyfile _ _ fs) as [[[] | e] fs1] eqn:Hcopy; [| discriminate].
    apply copyfile_Ok in Hcopy as (n & Hn & HnDir & ->).
    rewrite node_at_path_join in Hn.
    unfold bind at 1.
    destruct (imread _ _) as [[m | e] fs2] eqn:Hread; [| discriminate].
    apply imread_Ok in Hread as [-> Hm].
    rewrite node_at_path_join, lookup_insert_ne in Hm
      by (intros H; apply path_join_inj2 in H as [? _]; congruence).
    unfold bind at 1.
    destruct (imsave _ _ _) as [[[] | e] fs3] eqn:Hsave; [| discriminate].
    apply write_file_Ok in Hsave as ->.
    intros Hrun. destruct (IH _ Hrun) as [Hstored Hother]. clear IH Hrun.
    set (fs2 := <[path_join dm (name +:+ ".bmp") := Bmp (binarize m)]>
                  (<[path_join di (name +:+ ".bmp") := n]> fs)) in *.
    assert (∀ f, fs2 !! path_join orig_path f = fs !! path_join orig_path f)
      as Horig.
    { intros f. unfold fs2. rewrite !lookup_insert_ne; [done | |];
        intros H; apply path_join_inj2 in H as [? _]; congruence. }
    split.
    + intros name' Hin. apply elem_of_cons in Hin as [-> | Hin].
      * exists n, m. split; [exact Hn |]. split; [exact HnDir |].
        split; [exact Hm |].
        destruct (decide (name ∈ names)) as [Hrep | Hnew].
        -- destruct (Hstored name Hrep) as (n' & m' & Hn' & _ & Hm' & Hi & Hk).
           rewrite Horig in Hn', Hm'. unfold image_file, mask_file in *.
           rewrite Hn in Hn'. rewrite Hm in Hm'.
           injection Hn' as <-. injection Hm' as <-. done.
        -- assert (∀ d, fs' !! path_join d (image_file name)
                        = fs2 !! path_join d (image_file name)) as Hkeep.
           { intros d. apply Hother. intros name' Hin.
             split; intros H; apply path_join_inj2 in H as [_ H];
               apply append_inj_r in H; congruence. }
           rewrite !Hkeep. unfold fs2, image_file. split.
           ++ rewrite lookup_insert_ne, lookup_insert_eq; [done |].
              intros H. apply path_join_inj2 in H as [? _]. congruence.
           ++ by rewrite lookup_insert_eq.
      * destruct (Hstored name' Hin) as (n' & m' & Hn' & Hd' & Hm' & Hi & Hk).
        rewrite Horig in Hn', Hm'. by exists n', m'.
    + intros p Hp. rewrite Hother.
      * destruct (Hp name) as [Hp1 Hp2]; [left |].
        unfold fs2. by rewrite !lookup_insert_ne.
      * intros name' Hin. apply Hp. by right.
Qed.

Lemma mkdir_Ok (p : path) (fs fs' : FS) :
  mkdir p fs = (Ok (), fs') → fs' = <[p := Dir]> fs.
Proof. unfold mkdir. intros Hrun. by repeat case_match; simplify_eq. Qed.

Lemma lookup_insert_Dir (fs : FS) (q p : path) (n : node) :
  <[q := Dir]> fs !! p = Some n → n ≠ Dir → fs !! p = Some n.
Proof.
  intros Hp Hn. destruct (decide (p = q)) as [-> | Hne].
  - rewrite lookup_insert_eq in Hp. congruence.
  - by rewrite lookup_insert_ne in Hp.
Qed.

Lemma ensure_dir_nondir (dst_path p : path) (fs fs1 : FS) (n : node) :
  ensure_dir dst_path fs = (Ok (), fs1) →
  fs1 !! p = Some n → n ≠ Dir → fs !! p = Some n.
Proof.
  intros Hdir Hp Hn. apply ensure_dir_cases in Hdir as [-> | (_ & _ & ->)]; [done |].
  by eapply lookup_insert_Dir.
Qed.

Lemma path_join_join_ne (d : path) (a b c : string) :
  path_join d a ≠ path_join (path_join d b) c.
Proof.
  unfold path_join. intros H. apply (f_equal length) in H.
  rewrite !length_app in H. simpl in H. lia.
Qed.

(** A run of the materializer that raises nothing leaves the directories
    [images] and [masks] in the destination and, for every identifier, a
    copy of its image under [images] and its binarized mask under [masks],
    the mask under the file name of the image and not under its own. *)
Theorem prepare_raw_images_stores (orig_path dst_path : path)
    (names : list string) (fs fs' : FS) :
  orig_path ≠ path_join dst_path "images" →
  orig_path ≠ path_join dst_path "masks" →
  prepare_raw_images orig_path dst_path names fs = (Ok (), fs') →
  fs' !! path_join dst_path "images" = Some Dir
  ∧ fs' !! path_join dst_path "masks" = Some Dir
  ∧ ∀ name, name ∈ names →
      ∃ n m,
        fs !! path_join orig_path (image_file name) = Some n
        ∧ fs !! path_join orig_path (mask_file name) = Some (Bmp m)
        ∧ fs' !! path_join (path_join dst_path "images") (image_file name)
          = Some n
        ∧ fs' !! path_join (path_join dst_path "masks") (image_file name)
          = Some (Bmp (binarize m)).
Proof.
  intros Hdi Hdm. unfold prepare_raw_images. unfold bind at 1.
  destruct (ensure_dir dst_path fs) as [[[] | e] fs1] eqn:Hdir; [| discriminate].
  unfold bind at 1.
  destruct (mkdir _ fs1) as [[[] | e] fs2] eqn:Hmk1; [| discriminate].
  apply mkdir_Ok in Hmk1 as ->. unfold bind at 1.
  destruct (mkdir _ _) as [[[] | e] fs3] eqn:Hmk2; [| discriminate].
  apply mkdir_Ok in Hmk2 as ->. intros Hloop.
  assert (path_join dst_path "images" ≠ path_join dst_path "masks") as Hdd
    by (intros H; apply path_join_inj in H; discriminate).
  apply raw_images_loop_Ok in Hloop as [Hstored Hother]; try done.
  split; [| split].
  - rewrite Hother.
    + by rewrite lookup_insert_ne, lookup_insert_eq.
    + intros name _. split; [| apply path_join_join_ne].
      intros H. symmetry in H. by apply path_join_ne in H.
  - rewrite Hother.
    + by rewrite lookup_insert_eq.
    + intros name _. split; [apply path_join_join_ne |].
      intros H. symmetry in H. by apply path_join_ne in H.
  - intros name Hin.
    destruct (Hstored name Hin) as (n & m & Hn & HnDir & Hm & Hi & Hk).
    exists n, m. repeat split; try done.
    + apply lookup_insert_Dir in Hn; [| done].
      apply lookup_insert_Dir in Hn; [| done].
      by eapply ensure_dir_nondir.
    + apply lookup_insert_Dir in Hm; [| done].
      apply lookup_insert_Dir in Hm; [| done].
      by eapply ensure_dir_nondir.
Qed.

Lemma prepare_raw_images_stores_witness :
  let fs' := (prepare_raw_images ["GlaS"] ["train"] ["train_1"; "train_2"]
                aligned_fs).2 in
  fs' !! path_join ["train"] "images" = Some Dir
  ∧ fs' !! path_join ["train"] "masks" = Some Dir
  ∧ ∀ name, name ∈ ["train_1"; "train_2"] →
      ∃ n m,
        aligned_fs !! path_join ["GlaS"] (image_file name) = Some n
        ∧ aligned_fs !! path_join ["GlaS"] (mask_file name) = Some (Bmp m)
        ∧ fs' !! path_join (path_join ["train"] "images") (image_file name)
          = Some n
        ∧ fs' !! path_join (path_join ["train"] "masks") (image_file name)
          = Some (Bmp (binarize m)).
Proof.
  apply (prepare_raw_images_stores ["GlaS"] ["train"] ["train_1"; "train_2"]
           aligned_fs).
  - discriminate.
  - discriminate.
  - apply run_result. vm_compute. reflexivity.
Defined.

(** ** The masks of the corpus *)

Lemma crop_binarize (r c h w : nat) (m : image) :
  crop r c h w (binarize m) = binarize (crop r c h w m).
Proof.
  unfold crop, binarize.
  rewrite <- fmap_drop, <- fmap_take, <- !list_fmap_compose.
  apply list_fmap_ext. intros i row _. simpl.
  by rewrite fmap_take, fmap_drop.
Qed.

Lemma channel_shape_binarize (m : image) :
  channel_shape (binarize m) = channel_shape m.
Proof.
  destruct m as [| [| [v | cs] row] m]; csimpl; try done.
  by rewrite length_fmap.
Qed.

Lemma divide_binarize (m : image) (P : nat) :
  divide_image_to_patches (binarize m) P
  = {| trailing := trailing (divide_image_to_patches m P);
       patches := binarize <$> patches (divide_image_to_patches m P) |}.
Proof.
  unfold divide_image_to_patches. simpl.
  rewrite channel_shape_binarize, height_binarize, width_binarize. f_equal.
  rewrite <- list_fmap_compose. apply list_fmap_ext. intros i rc _. simpl.
  apply crop_binarize.
Qed.

Lemma concat_binarized (P : nat) (f : string → image) (names : list string) :
  concat ((λ name, patches (divide_image_to_patches (binarize (f name)) P))
          <$> names)
  = binarize <$> concat ((λ name, patches (divide_image_to_patches (f name) P))
                         <$> names).
Proof.
  induction names as [| name names IH]; [done |].
  rewrite !fmap_cons. cbn [concat]. rewrite fmap_app, IH. f_equal.
  by rewrite divide_binarize.
Qed.

(** In a run of the assembler that raises nothing, the corpus of the masks
    holds the patches of the masks as read, each binarized: dividing the
    binarized mask gives the binarized patches, and every sample of the
    corpus is 0 or 1. *)
Theorem prepare_patches_masks_binary (P : nat) (orig_path dst_path : path)
    (names : list string) (fs fs' : FS) :
  prepare_patches P orig_path dst_path names fs = (Ok (), fs') →
  ∃ Y,
    fs' !! path_join dst_path "masks.npy" = Some (Npy Y)
    ∧ patches Y
      = binarize
          <$> concat ((λ name, patches (divide_image_to_patches
                         (read_image fs (path_join orig_path (mask_file name))) P))
                      <$> names)
    ∧ Forall (λ p, is_binary p = true) (patches Y).
Proof.
  intros Hrun.
  apply prepare_patches_Ok in Hrun as (fs1 & X & Y & _ & _ & _ & HY & ->).
  apply np_concatenate_Ok in HY as [_ HY]. rewrite <- list_fmap_compose in HY.
  exists Y. destruct (corpora_lookup dst_path X Y fs1) as [_ HiY].
  split; [exact HiY |].
  assert (patches Y
          = binarize
              <$> concat ((λ name, patches (divide_image_to_patches
                             (read_image fs (path_join orig_path (mask_file name))) P))
                          <$> names)) as Hbin.
  { rewrite HY. apply (concat_binarized P
      (λ name, read_image fs (path_join orig_path (mask_file name)))). }
  split; [exact Hbin |].
  rewrite Hbin. apply Forall_fmap, Forall_true. intros p. apply binarize_binary.
Qed.

Lemma prepare_patches_masks_binary_witness :
  ∃ Y,
    (prepare_patches 2 ["GlaS"] ["val"] ["train_1"; "train_2"] aligned_fs).2
      !! path_join ["val"] "masks.npy" = Some (Npy Y)
    ∧ patches Y
      = binarize
          <$> concat ((λ name, patches (divide_image_to_patches
                         (read_image aligned_fs (path_join ["GlaS"] (mask_file name))) 2))
                      <$> ["train_1"; "train_2"])
    ∧ Forall (λ p, is_binary p = true) (patches Y).
Proof.
  apply (prepare_patches_masks_binary 2 ["GlaS"] ["val"] ["train_1"; "train_2"]
           aligned_fs).
  apply run_result. vm_compute. reflexivity.
Defined.

(** ** Shapes that cannot be concatenated *)

Lemma np_concatenate_trailing (arrays : list stack) (X : stack) :
  np_concatenate arrays = Ok X → Forall (λ b, trailing b = trailing X) arrays.
Proof.
  destruct arrays as [| a rest]; [discriminate |]. unfold np_concatenate.
  destruct (forallb _ rest) eqn:Hall; [| discriminate]. intros [= <-]. simpl.
  constructor; [done |]. apply Forall_forall. intros b Hb.
  rewrite forallb_forall in Hall. apply list_elem_of_In in Hb.
  apply Hall in Hb. by apply bool_decide_eq_true_1 in Hb.
Qed.

(** A run of the assembler that raises nothing has found one channel shape
    in all the images and one in all the masks: grayscale and colour
    samples cannot share a corpus. *)
Theorem prepare_patches_one_shape (P : nat) (orig_path dst_path : path)
    (names : list string) (fs fs' : FS) :
  prepare_patches P orig_path dst_path names fs = (Ok (), fs') →
  ∃ ci cm,
    Forall (λ name, channel_shape (sample_image fs orig_path name) = ci
                    ∧ channel_shape (sample_mask fs orig_path name) = cm) names.
Proof.
  intros Hrun.
  apply prepare_patches_Ok in Hrun as (fs1 & X & Y & _ & _ & HX & HY & _).
  apply np_concatenate_trailing in HX, HY.
  rewrite Forall_fmap in HX, HY.
  exists (drop 2 (trailing X)), (drop 2 (trailing Y)).
  apply Forall_forall. intros name Hname.
  rewrite Forall_forall in HX, HY.
  specialize (HX name Hname). specialize (HY name Hname). simpl in HX, HY.
  rewrite <- HX, <- HY. done.
Qed.

Lemma prepare_patches_one_shape_witness :
  ∃ ci cm,
    Forall (λ name, channel_shape (sample_image aligned_fs ["GlaS"] name) = ci
                    ∧ channel_shape (sample_mask aligned_fs ["GlaS"] name) = cm)
           ["train_1"; "train_2"].
Proof.
  apply (prepare_patches_one_shape 2 ["GlaS"] ["val"] ["train_1"; "train_2"]
           aligned_fs
           (prepare_patches 2 ["GlaS"] ["val"] ["train_1"; "train_2"]
              aligned_fs).2).
  apply run_result. vm_compute. reflexivity.
Defined.

(** ** Samples that cannot be read *)

(** When the image or the mask of some identifier cannot be read, the
    assembler raises and writes neither corpus. *)
Theorem prepare_patches_unreadable (P : nat) (orig_path dst_path : path)
    (names : list string) (fs : FS) :
  Exists (λ name, ¬ readable fs (path_join orig_path (image_file name))
                  ∨ ¬ readable fs (path_join orig_path (mask_file name))) names →
  ∃ e fs',
    prepare_patches P orig_path dst_path names fs = (Raise e, fs')
    ∧ fs' !! path_join dst_path "images.npy" = fs !! path_join dst_path "images.npy"
    ∧ fs' !! path_join dst_path "masks.npy" = fs !! path_join dst_path "masks.npy".
Proof.
  intros Hbad. unfold prepare_patches. unfold bind at 1.
  destruct (ensure_dir dst_path fs) as [[[] | e] fs1] eqn:Hdir.
  - unfold bind at 1.
    destruct (patches_loop _ _ _ _ _ fs1) as [[[x y] | e] fs2] eqn:Hloop.
    + apply patches_loop_Ok in Hloop as (_ & Hall & _).
      apply Exists_exists in Hbad as (name & Hname & Hbad).
      rewrite Forall_forall in Hall.
      destruct (Hall name Hname) as [[img Himg] [m Hm]].
      apply (ensure_dir_read _ _ _ _ _ Hdir) in Himg, Hm.
      destruct Hbad as [Hbad | Hbad]; destruct Hbad; by eexists.
    + apply patches_loop_same in Hloop as ->.
      exists e, fs1. split; [done |]. split; by eapply ensure_dir_child.
  - exists e, fs1. split; [done |]. split; by eapply ensure_dir_child.
Qed.

Lemma prepare_patches_unreadable_witness :
  ∃ e fs',
    prepare_patches 2 ["GlaS"] ["val"] ["train_1"; "train_3"] aligned_fs
    = (Raise e, fs')
    ∧ fs' !! path_join ["val"] "images.npy" = aligned_fs !! path_join ["val"] "images.npy"
    ∧ fs' !! path_join ["val"] "masks.npy" = aligned_fs !! path_join ["val"] "masks.npy".
Proof.
  apply (prepare_patches_unreadable 2 ["GlaS"] ["val"] ["train_1"; "train_3"]
           aligned_fs).
  apply Exists_cons_tl, Exists_cons_hd. left. intros [img Himg].
  vm_compute in Himg. discriminate.
Defined.

(** ** A destination whose parent is not there *)

Lemma ensure_dir_no_parent (dst_path : path) (fs : FS) :
  node_at fs dst_path = None → node_at fs (dirname dst_path) = None →
  ensure_dir dst_path fs = (Raise FileNotFoundError, fs).
Proof.
  intros Hdst Hparent. unfold ensure_dir, bind, path_exists, mkdir.
  rewrite bool_decide_eq_false_2 by (rewrite Hdst; by intros [? ?]).
  by rewrite Hdst, Hparent.
Qed.

(** [os.mkdir] creates one level only: with neither the destination nor
    its parent there, the materializer and the assembler raise
    [FileNotFoundError] and change nothing. *)
Theorem destination_parent_missing (P : nat) (orig_path dst_path : path)
    (names : list string) (fs : FS) :
  node_at fs dst_path = None → node_at fs (dirname dst_path) = None →
  prepare_raw_images orig_path dst_path names fs = (Raise FileNotFoundError, fs)
  ∧ prepare_patches P orig_path dst_path names fs = (Raise FileNotFoundError, fs).
Proof.
  intros Hdst Hparent.
  pose proof (ensure_dir_no_parent _ _ Hdst Hparent) as Hdir.
  unfold prepare_raw_images, prepare_patches. split; unfold bind at 1; by rewrite Hdir.
Qed.

Lemma destination_parent_missing_witness :
  prepare_raw_images ["GlaS"] ["data"; "train"] ["train_1"] aligned_fs
  = (Raise FileNotFoundError, aligned_fs)
  ∧ prepare_patches 2 ["GlaS"] ["data"; "val"] ["train_1"] aligned_fs
    = (Raise FileNotFoundError, aligned_fs).
Proof.
  split.
  - apply (destination_parent_missing 2 ["GlaS"] ["data"; "train"] ["train_1"]
             aligned_fs); reflexivity.
  - apply (destination_parent_missing 2 ["GlaS"] ["data"; "val"] ["train_1"]
             aligned_fs); reflexivity.
Defined.

(** ** What a failed run leaves behind *)

(** When the image of the first identifier is missing, the materializer
    raises [FileNotFoundError] after it has created [images] and [masks],
    and leaves them there: run again on what it left, with any identifiers,
    it raises [FileExistsError]. *)
Theorem prepare_raw_images_no_rollback (orig_path dst_path : path)
    (name : string) (rest : list string) (fs : FS) :
  node_at fs dst_path = Some Dir →
  fs !! path_join dst_path "images" = None →
  fs !! path_join dst_path "masks" = None →
  orig_path ≠ dst_path →
  fs !! path_join orig_path (image_file name) = None →
  ∃ fs1,
    prepare_raw_images orig_path dst_path (name :: rest) fs
    = (Raise FileNotFoundError, fs1)
    ∧ fs1 !! path_join dst_path "images" = Some Dir
    ∧ fs1 !! path_join dst_path "masks" = Some Dir
    ∧ ∀ names', prepare_raw_images orig_path dst_path names' fs1
                = (Raise FileExistsError, fs1).
Proof.
  intros Hdst Himages Hmasks Horig Himg.
  assert (path_join dst_path "images" ≠ path_join dst_path "masks") as Hdd
    by (intros H; apply path_join_inj in H; discriminate).
  assert (∀ d, dst_path ≠ path_join dst_path d) as Hne
    by (intros d H; symmetry in H; by apply path_join_ne in H).
  assert (node_at (<[path_join dst_path "images" := Dir]> fs) dst_path = Some Dir)
    as Hdst1 by (by rewrite node_at_insert_ne).
  assert (node_at (<[path_join dst_path "masks" := Dir]>
                     (<[path_join dst_path "images" := Dir]> fs)) dst_path
          = Some Dir) as Hdst2 by (by rewrite node_at_insert_ne).
  assert ((<[path_join dst_path "masks" := Dir]>
             (<[path_join dst_path "images" := Dir]> fs))
            !! path_join dst_path "images" = Some Dir) as Hdi
    by (by rewrite lookup_insert_ne, lookup_insert_eq).
  assert ((<[path_join dst_path "masks" := Dir]>
             (<[path_join dst_path "images" := Dir]> fs))
            !! path_join orig_path (image_file name) = None) as Hsrc.
  { rewrite !lookup_insert_ne; [done | |];
      intros H; apply path_join_inj2 in H as [? _]; congruence. }
  eexists. split; [| split; [exact Hdi | split]].
  - unfold prepare_raw_images. unfold bind at 1.
    rewrite ensure_dir_exists by (rewrite Hdst; eauto).
    unfold bind at 1. unfold mkdir at 1.
    rewrite node_at_path_join, Himages, dirname_path_join, Hdst.
    unfold bind at 1. unfold mkdir at 1.
    rewrite node_at_path_join, lookup_insert_ne, Hmasks by done.
    rewrite dirname_path_join, Hdst1.
    simpl. unfold bind at 1, copyfile.
    change (name +:+ ".bmp") with (image_file name).
    rewrite node_at_path_join, Hsrc. by case_decide.
  - by rewrite lookup_insert_eq.
  - intros names'. unfold prepare_raw_images. unfold bind at 1.
    rewrite ensure_dir_exists by (rewrite Hdst2; eauto).
    unfold bind at 1, mkdir at 1.
    by rewrite node_at_path_join, Hdi.
Qed.

Lemma prepare_raw_images_no_rollback_witness :
  ∃ fs1,
    prepare_raw_images ["GlaS"] [] ("train_3" :: ["train_1"]) aligned_fs
    = (Raise FileNotFoundError, fs1)
    ∧ fs1 !! path_join [] "images" = Some Dir
    ∧ fs1 !! path_join [] "masks" = Some Dir
    ∧ ∀ names', prepare_raw_images ["GlaS"] [] names' fs1
                = (Raise FileExistsError, fs1).
Proof.
  apply (prepare_raw_images_no_rollback ["GlaS"] [] "train_3" ["train_1"] aligned_fs).
  - reflexivity.
  - reflexivity.
  - reflexivity.
  - discriminate.
  - reflexivity.
Defined.

(** ** The script *)

Ltac path_ne :=
  let H := fresh in
  intros H; unfold path_join in H; rewrite <- ?app_assoc in H; simpl in H;
  apply app_inv_head in H; congruence.

Lemma dirname_path_join_ne (d q : path) (name : string) :
  d ≠ q → dirname (path_join d name) ≠ q.
Proof. by rewrite dirname_path_join. Qed.

Lemma prepare_raw_images_dirs (orig_path dst_path : path)
    (names : list string) (fs fs' : FS) :
  prepare_raw_images orig_path dst_path names fs = (Ok (), fs') →
  fs' !! path_join dst_path "images" = Some Dir
  ∧ fs' !! path_join dst_path "masks" = Some Dir.
Proof.
  unfold prepare_raw_images. unfold bind at 1.
  destruct (ensure_dir dst_path fs) as [[[] | e] fs1] eqn:Hdir; [| discriminate].
  unfold bind at 1.
  destruct (mkdir _ fs1) as [[[] | e] fs2] eqn:Hmk1; [| discriminate].
  apply mkdir_Ok in Hmk1 as ->. unfold bind at 1.
  destruct (mkdir _ _) as [[[] | e] fs3] eqn:Hmk2; [| discriminate].
  apply mkdir_Ok in Hmk2 as ->. intros Hloop.
  assert (∀ d, dst_path ≠ path_join dst_path d) as Hne
    by (intros d H; symmetry in H; by apply path_join_ne in H).
  split.
  - rewrite (raw_images_loop_off _ _ _ _ _ _ _ _ Hloop)
      by (by apply dirname_path_join_ne).
    rewrite lookup_insert_ne, lookup_insert_eq; [done |].
    intros H. apply path_join_inj in H. discriminate.
  - rewrite (raw_images_loop_off _ _ _ _ _ _ _ _ Hloop)
      by (by apply dirname_path_join_ne).
    by rewrite lookup_insert_eq.
Qed.

Lemma prepare_raw_images_exists (orig_path dst_path : path)
    (names : list string) (fs : FS) :
  node_at fs dst_path = Some Dir →
  is_Some (fs !! path_join dst_path "images") →
  prepare_raw_images orig_path dst_path names fs = (Raise FileExistsError, fs).
Proof.
  intros Hdst [n Himages]. unfold prepare_raw_images. unfold bind at 1.
  rewrite ensure_dir_exists by (rewrite Hdst; eauto).
  unfold bind at 1, mkdir at 1. by rewrite node_at_path_join, Himages.
Qed.

(** Another directory of the output keeps what it holds. *)
Lemma prepare_raw_images_keeps (orig_path o : path) (d d' x : string)
    (names : list string) (fs fs' : FS) (r : result unit) :
  d ≠ d' →
  prepare_raw_images orig_path (path_join o d') names fs = (r, fs') →
  fs' !! path_join (path_join o d) x = fs !! path_join (path_join o d) x.
Proof.
  intros Hd Hrun. apply (prepare_raw_images_off _ _ _ _ _ _ _ Hrun).
  - path_ne.
  - path_ne.
  - path_ne.
  - rewrite dirname_path_join. path_ne.
  - rewrite dirname_path_join. path_ne.
Qed.

Lemma prepare_patches_keeps (P : nat) (orig_path o : path) (d d' x : string)
    (names : list string) (fs fs' : FS) (r : result unit) :
  d ≠ d' →
  prepare_patches P orig_path (path_join o d') names fs = (r, fs') →
  fs' !! path_join (path_join o d) x = fs !! path_join (path_join o d) x.
Proof.
  intros Hd Hrun. apply (prepare_patches_off _ _ _ _ _ _ _ _ Hrun); path_ne.
Qed.

Section Script.

Variables (rng float : Type).
Variable train_test_split :
  rng → list string → list nat → float → result (list string * list string).
Variable PATCH_SIZE : nat.

(** Without the manifest the script raises [FileNotFoundError] before it
    creates or prints anything. *)
Theorem main_missing_manifest (rs : rng) (args : Args float) (fs : FS) :
  node_at fs (path_join (dataset_path args) "Grade.csv") = None →
  main rng float train_test_split PATCH_SIZE rs args fs
  = (Raise FileNotFoundError, fs, []).
Proof.
  intros Hnode. unfold main, split_train_val_test, read_groups, read_csv.
  unfold bind at 1. unfold bind at 1. by rewrite Hnode.
Qed.

(** Run on an output directory in which [train/images] is already there,
    the script raises [FileExistsError] at the training stage, with nothing
    changed and nothing printed. *)
Theorem main_rerun (rs : rng) (args : Args float) (fs fs0 : FS)
    (sets : list string * list string * list string * list string) :
  split_train_val_test rng float train_test_split rs
    (dataset_path args) (val_size args) fs = (Ok sets, fs0) →
  node_at fs (output args) = Some Dir →
  fs !! path_join (output args) "train" = Some Dir →
  is_Some (fs !! path_join (path_join (output args) "train") "images") →
  main rng float train_test_split PATCH_SIZE rs args fs
  = (Raise FileExistsError, fs, []).
Proof.
  intros Hsplit Hout Htrain Himages. unfold main.
  pose proof (split_train_val_test_same _ _ _ _ _ _ _ _ _ Hsplit) as ->.
  rewrite Hsplit. destruct sets as [[[train_set val_set] testA_set] testB_set].
  simpl. rewrite ensure_dir_exists by (rewrite Hout; eauto).
  rewrite prepare_raw_images_exists; [done | | done].
  by rewrite node_at_path_join.
Qed.

(** A run of the script that raises nothing has printed its four lines in
    order and leaves the layout of the output: the directories [images] and
    [masks] in [train], [testA] and [testB], and the two corpora in [val]. *)
Theorem main_layout (rs : rng) (args : Args float) (fs fs' : FS)
    (printed : list string) :
  main rng float train_test_split PATCH_SIZE rs args fs = (Ok (), fs', printed) →
  printed = ["Training data is done."; "Validation data is done.";
             "TestA data is done."; "TestB data is done."]
  ∧ Forall (λ d, fs' !! path_join (path_join (output args) d) "images" = Some Dir
                 ∧ fs' !! path_join (path_join (output args) d) "masks" = Some Dir)
           ["train"; "testA"; "testB"]
  ∧ ∃ X Y,
      fs' !! path_join (path_join (output args) "val") "images.npy" = Some (Npy X)
      ∧ fs' !! path_join (path_join (output args) "val") "masks.npy" = Some (Npy Y).
Proof.
  unfold main.
  destruct (split_train_val_test _ _ _ _ _ _ fs)
    as [[[[[train_set val_set] testA_set] testB_set] | e] fs0]; [| discriminate].
  simpl.
  destruct (ensure_dir _ fs0) as [[[] | e] fs1]; [| discriminate].
  destruct (prepare_raw_images _ _ train_set fs1) as [[[] | e] fs2] eqn:Htrain;
    [| discriminate].
  destruct (prepare_patches _ _ _ val_set fs2) as [[[] | e] fs3] eqn:Hval;
    [| discriminate].
  destruct (prepare_raw_images _ _ testA_set fs3) as [[[] | e] fs4] eqn:HtestA;
    [| discriminate].
  destruct (prepare_raw_images _ _ testB_set fs4) as [[[] | e] fs5] eqn:HtestB;
    [| discriminate].
  intros [= <- <-]. split; [reflexivity |].
  apply prepare_raw_images_dirs in Htrain as Htrain'. destruct Htrain' as [Ht1 Ht2].
  apply prepare_raw_images_dirs in HtestA as HtestA'. destruct HtestA' as [Ha1 Ha2].
  apply prepare_raw_images_dirs in HtestB as HtestB'. destruct HtestB' as [Hb1 Hb2].
  apply prepare_patches_Ok in Hval as Hval'.
  destruct Hval' as (fs2' & X & Y & _ & _ & _ & _ & Hfs3).
  destruct (corpora_lookup (path_join (output args) "val") X Y fs2') as [HX HY].
  simpl in HX, HY. rewrite <- Hfs3 in HX, HY.
  split.
  - repeat constructor.
    + rewrite (prepare_raw_images_keeps _ _ "train" "testB" _ _ _ _ _ ltac:(done) HtestB).
      rewrite (prepare_raw_images_keeps _ _ "train" "testA" _ _ _ _ _ ltac:(done) HtestA).
      by rewrite (prepare_patches_keeps _ _ _ "train" "val" _ _ _ _ _ ltac:(done) Hval).
    + rewrite (prepare_raw_images_keeps _ _ "train" "testB" _ _ _ _ _ ltac:(done) HtestB).
      rewrite (prepare_raw_images_keeps _ _ "train" "testA" _ _ _ _ _ ltac:(done) HtestA).
      by rewrite (prepare_patches_keeps _ _ _ "train" "val" _ _ _ _ _ ltac:(done) Hval).
    + by rewrite (prepare_raw_images_keeps _ _ "testA" "testB" _ _ _ _ _ ltac:(done) HtestB).
    + by rewrite (prepare_raw_images_keeps _ _ "testA" "testB" _ _ _ _ _ ltac:(done) HtestB).
    + done.
    + done.
  - exists X, Y. split.
    + rewrite (prepare_raw_images_keeps _ _ "val" "testB" _ _ _ _ _ ltac:(done) HtestB).
      by rewrite (prepare_raw_images_keeps _ _ "val" "testA" _ _ _ _ _ ltac:(done) HtestA).
    + rewrite (prepare_raw_images_keeps _ _ "val" "testB" _ _ _ _ _ ltac:(done) HtestB).
      by rewrite (prepare_raw_images_keeps _ _ "val" "testA" _ _ _ _ _ ltac:(done) HtestA).
Qed.

End Script.

Lemma run_result3 {A B C} (r : A * B * C) (a : A) :
  r.1.1 = a → r = (a, r.1.2, r.2).
Proof. destruct r as [[? ?] ?]. simpl. by intros ->. Qed.

Lemma main_missing_manifest_witness :
  main unit (nat * nat) tail_split 2 () small_args aligned_fs
  = (Raise FileNotFoundError, aligned_fs, []).
Proof.
  apply (main_missing_manifest unit (nat * nat) tail_split 2 () small_args
           aligned_fs).
  reflexivity.
Defined.

Lemma main_rerun_witness :
  main unit (nat * nat) tail_split 2 () small_args rerun_dataset_fs
  = (Raise FileExistsError, rerun_dataset_fs, []).
Proof.
  apply (main_rerun unit (nat * nat) tail_split 2 () small_args rerun_dataset_fs
           (split_train_val_test unit (nat * nat) tail_split ()
              ["GlaS"] (1, 2) rerun_dataset_fs).2
           (["train_1"], ["train_2"], ["testA_1"], ["testB_1"])).
  - apply run_result. vm_compute. reflexivity.
  - reflexivity.
  - reflexivity.
  - by exists Dir.
Defined.

Lemma main_layout_witness :
  let run := main unit (nat * nat) tail_split 2 () small_args dataset_fs in
  run.2 = ["Training data is done."; "Validation data is done.";
           "TestA data is done."; "TestB data is done."]
  ∧ Forall (λ d, run.1.2 !! path_join (path_join ["data"] d) "images" = Some Dir
                 ∧ run.1.2 !! path_join (path_join ["data"] d) "masks" = Some Dir)
           ["train"; "testA"; "testB"]
  ∧ ∃ X Y,
      run.1.2 !! path_join (path_join ["data"] "val") "images.npy" = Some (Npy X)
      ∧ run.1.2 !! path_join (path_join ["data"] "val") "masks.npy" = Some (Npy Y).
Proof.
  apply (main_layout unit (nat * nat) tail_split 2 () small_args dataset_fs).
  apply run_result3. vm_compute. reflexivity.
Defined.

(** ** A destination that is a file *)

(** [os.path.exists] holds of a file as of a directory, so a destination
    that is a file is not created again: the materializer raises
    [NotADirectoryError] at the [os.mkdir] of [images], the assembler
    raises at the latest when it saves the first corpus, and neither
    changes anything. *)
Theorem destination_is_a_file (P : nat) (orig_path dst_path : path)
    (names : list string) (fs : FS) (n : node) :
  node_at fs dst_path = Some n → n ≠ Dir →
  fs !! path_join dst_path "images" = None →
  prepare_raw_images orig_path dst_path names fs = (Raise NotADirectoryError, fs)
  ∧ ∃ e, prepare_patches P orig_path dst_path names fs = (Raise e, fs).
Proof.
  intros Hdst Hn Himages.
  assert (ensure_dir dst_path fs = (Ok (), fs)) as Hdir
    by (apply ensure_dir_exists; rewrite Hdst; eauto).
  split.
  - unfold prepare_raw_images. unfold bind at 1. rewrite Hdir.
    unfold bind at 1, mkdir at 1.
    rewrite node_at_path_join, Himages, dirname_path_join, Hdst.
    by destruct n.
  - unfold prepare_patches. unfold bind at 1. rewrite Hdir. unfold bind at 1.
    destruct (patches_loop _ _ _ _ _ fs) as [[[x y] | e] fs1] eqn:Hloop;
      apply patches_loop_same in Hloop as ->; [| by exists e].
    unfold bind at 1, lift at 1.
    destruct (np_concatenate x) as [X | e]; [| by exists e].
    unfold bind at 1, np_save at 1, write_file at 1.
    rewrite dirname_path_join, Hdst. exists NotADirectoryError. by destruct n.
Qed.

Lemma destination_is_a_file_witness :
  prepare_raw_images ["GlaS"] ["GlaS"; "train_1.bmp"] ["train_1"] aligned_fs
  = (Raise NotADirectoryError, aligned_fs)
  ∧ ∃ e, prepare_patches 2 ["GlaS"] ["GlaS"; "train_1.bmp"] ["train_1"] aligned_fs
         = (Raise e, aligned_fs).
Proof.
  apply (destination_is_a_file 2 ["GlaS"] ["GlaS"; "train_1.bmp"] ["train_1"]
           aligned_fs
           (Bmp [[Gray 1; Gray 2; Gray 3; Gray 4]; [Gray 5; Gray 6; Gray 7; Gray 8]])).
  - reflexivity.
  - discriminate.
  - reflexivity.
Defined.
